(** * drag-drop: the project board of [src/app.ts]

    A shallow embedding of the TypeScript program: the project store
    ([ProjectState]) with its observer registry ([State<T>]), the column
    view model ([ProjectList]), the draggable card ([ProjectItem]), and the
    form validation function ([validate]).

    JavaScript objects are heap cells addressed by locations, so that the
    sharing of [Project] objects between the store's internal array and the
    arrays handed to listeners is visible in the model. *)

From Stdlib Require Import Floats.
From Stdlib Require Import Ascii String.
From stdpp Require Import gmap list strings.

Local Open Scope nat_scope.

(** ** Platform values *)

(** A JavaScript string is a sequence of UTF-16 code units. *)
Abbreviation jsstring := (list N).

(** The code units of an ASCII literal. *)
Fixpoint js (s : string) : jsstring :=
  match s with
  | EmptyString => []
  | String c s' => N_of_ascii c :: js s'
  end.

(** A JavaScript number is an IEEE 754 binary64 value. *)
Abbreviation number := float.

(** [x >= y] and [x <= y] on numbers: false as soon as one side is NaN. *)
Definition Number_ge (x y : number) : bool := PrimFloat.leb y x.
Definition Number_le (x y : number) : bool := PrimFloat.leb x y.

(** The number denoted by a length (exact below 2^53, which bounds the
    length of a JavaScript string). *)
Definition Number_of_nat (n : nat) : number :=
  PrimFloat.of_uint63 (Uint63.of_Z (Z.of_nat n)).

(** ECMAScript WhiteSpace and LineTerminator code units, the ones
    [String.prototype.trim] strips. *)
Definition isWhiteSpace (c : N) : bool :=
  match c with
  | 9 | 10 | 11 | 12 | 13 | 32 | 160 | 5760
  | 8192 | 8193 | 8194 | 8195 | 8196 | 8197 | 8198 | 8199 | 8200 | 8201 | 8202
  | 8232 | 8233 | 8239 | 8287 | 12288 | 65279 => true
  | _ => false
  end%N.

Fixpoint trimStart (s : jsstring) : jsstring :=
  match s with
  | c :: s' => if isWhiteSpace c then trimStart s' else s
  | [] => []
  end.

(** [String.prototype.trim]. *)
Definition trim (s : jsstring) : jsstring :=
  rev (trimStart (rev (trimStart s))).

(** ** Project type *)

Inductive ProjectStatus := Active | Finished.

Global Instance ProjectStatus_eq_dec : EqDecision ProjectStatus.
Proof. solve_decision. Defined.

Record Project := mkProject {
  id : jsstring;
  title : jsstring;
  description : jsstring;
  people : number;
  status : ProjectStatus
}.

(** [project.status = newStatus] on a heap cell. *)
Definition set_status (newStatus : ProjectStatus) (p : Project) : Project :=
  mkProject (id p) (title p) (description p) (people p) newStatus.

(** ** Heap and components *)

Abbreviation loc := positive.

(** The two columns. *)
Inductive ListType := active | finished.

(** A [ProjectList] instance: its [type] and its [assignedProject] array. *)
Record ProjectList := mkProjectList {
  type : ListType;
  assignedProject : list loc
}.

(** A [ProjectItem] instance holds a reference to its project. *)
Record ProjectItem := mkProjectItem {
  project : loc
}.

(** The listener functions of the program: the closure created in
    [ProjectList.configure], which captures [this]. *)
Inductive Listener := ProjectListListener (this : loc).

Global Instance Listener_eq_dec : EqDecision Listener.
Proof. solve_decision. Defined.

(** The state of the page: the heap of [Project] objects, the heap of
    [Project[]] arrays, the fields of the [ProjectState] singleton
    ([projects] is a reference to its internal array), the [ProjectList]
    components, and the sequence of listener invocations so far (each with
    the array it was handed), oldest first. *)
Record World := mkWorld {
  objects : gmap loc Project;
  arrays : gmap loc (list loc);
  projects : loc;
  listeners : list Listener;
  components : gmap loc ProjectList;
  calls : list (Listener * loc)
}.

(** The elements of an array. *)
Definition elements_of (a : loc) (w : World) : list loc :=
  default [] (arrays w !! a).

(** [ProjectState.getInstance()] on first use, that is [new ProjectState()]:
    an empty internal array and no listeners. *)
Definition getInstance : World :=
  mkWorld ∅ {[ 1%positive := [] ]} 1%positive [] ∅ [].

(** ** Project state management *)

(** [State.addListener]. *)
Definition addListener (listenerFn : Listener) (w : World) : World :=
  mkWorld (objects w) (arrays w) (projects w)
          (listeners w ++ [listenerFn]) (components w) (calls w).

(** [array.slice()]: a fresh array with the same elements. *)
Definition slice (a : loc) (w : World) : loc * World :=
  let a' := fresh (dom (arrays w)) in
  (a', mkWorld (objects w) (<[a' := elements_of a w]> (arrays w)) (projects w)
               (listeners w) (components w) (calls w)).

(** The callback of [projects.filter] in [ProjectList.configure]. *)
Definition relevant (ty : ListType) (st : ProjectStatus) : bool :=
  match ty with
  | active => bool_decide (st = Active)
  | finished => bool_decide (st = Finished)
  end.

(** [projects.filter(prj => ...)] over any representation of the items,
    [status_of] reading an item's status. *)
Definition relevantProjects {A} (status_of : A → ProjectStatus)
    (ty : ListType) (projects : list A) : list A :=
  List.filter (λ prj, relevant ty (status_of prj)) projects.

(** Reading [prj.status] through a reference. *)
Definition status_at (w : World) (l : loc) : ProjectStatus :=
  default Active (status <$> objects w !! l).

(** Calling a listener with the array [items]: the body of the closure
    registered by [ProjectList.configure] (rendering is DOM work). *)
Definition call (listenerFn : Listener) (items : loc) (w : World) : World :=
  match listenerFn with
  | ProjectListListener this =>
      let relevantProjects :=
        relevantProjects (status_at w) (default active (type <$> components w !! this))
                         (elements_of items w) in
      mkWorld (objects w) (arrays w) (projects w) (listeners w)
              (alter (λ c, mkProjectList (type c) relevantProjects) this (components w))
              (calls w ++ [(listenerFn, items)])
  end.

(** One turn of the loop of [updateListeners]. *)
Definition notify (w : World) (listenerFn : Listener) : World :=
  let '(items, w') := slice (projects w) w in
  call listenerFn items w'.

(** [ProjectState.updateListeners]. *)
Definition updateListeners (w : World) : World :=
  foldl notify w (listeners w).

(** What [addProject] reads from the environment: the strings
    [Math.random().toString()] and [new Date().toISOString()]. *)
Record Ambient := mkAmbient {
  random_toString : jsstring;
  date_toISOString : jsstring
}.

(** The template literal that builds the id. *)
Definition newId (e : Ambient) : jsstring :=
  random_toString e ++ date_toISOString e.

(** [array.push(l)]. *)
Definition push (a : loc) (l : loc) (w : World) : World :=
  mkWorld (objects w) (<[a := elements_of a w ++ [l]]> (arrays w)) (projects w)
          (listeners w) (components w) (calls w).

(** [new Project(...)]: a fresh heap cell. *)
Definition new_Project (p : Project) (w : World) : loc * World :=
  let l := fresh (dom (objects w)) in
  (l, mkWorld (<[l := p]> (objects w)) (arrays w) (projects w)
              (listeners w) (components w) (calls w)).

(** [ProjectState.addProject]. *)
Definition addProject (e : Ambient) (title description : jsstring)
    (people : number) (w : World) : World :=
  let '(newProject, w) :=
    new_Project (mkProject (newId e) title description people Active) w in
  let w := push (projects w) newProject w in
  updateListeners w.

(** [this.projects.find(project => project.id === projectId)]. *)
Definition find_project (projectId : jsstring) (w : World) : option loc :=
  List.find (λ l, match objects w !! l with
                  | Some p => bool_decide (id p = projectId)
                  | None => false
                  end)
            (elements_of (projects w) w).

(** [ProjectState.moveProject]. *)
Definition moveProject (projectId : jsstring) (newStatus : ProjectStatus)
    (w : World) : World :=
  match find_project projectId w with
  | Some l =>
      match objects w !! l with
      | Some p =>
          if bool_decide (status p ≠ newStatus) then
            updateListeners
              (mkWorld (<[l := set_status newStatus p]> (objects w)) (arrays w)
                       (projects w) (listeners w) (components w) (calls w))
          else w
      | None => w
      end
  | None => w
  end.

(** The state in which [addProject] starts the broadcast. *)
Definition pushed (e : Ambient) (title description : jsstring) (people : number)
    (w : World) : World :=
  let l := fresh (dom (objects w)) in
  mkWorld (<[l := mkProject (newId e) title description people Active]> (objects w))
          (<[projects w := elements_of (projects w) w ++ [l]]> (arrays w))
          (projects w) (listeners w) (components w) (calls w).

(** The state in which a status-changing [moveProject] starts the
    broadcast. *)
Definition moved (l : loc) (p : Project) (newStatus : ProjectStatus) (w : World) : World :=
  mkWorld (<[l := set_status newStatus p]> (objects w)) (arrays w)
          (projects w) (listeners w) (components w) (calls w).

(** ** Drag and drop *)

(** The drag data store of a drag event: one entry per format, and the
    [effectAllowed] attribute. *)
Record DataTransfer := mkDataTransfer {
  items : list (jsstring * jsstring);
  effectAllowed : jsstring
}.

Record DragEvent := mkDragEvent {
  dataTransfer : option DataTransfer
}.

(** [dataTransfer.setData(format, data)]: replaces the entry of [format]. *)
Definition setData (format data : jsstring) (dt : DataTransfer) : DataTransfer :=
  mkDataTransfer
    (List.filter (λ it, negb (bool_decide (it.1 = format))) (items dt)
       ++ [(format, data)])
    (effectAllowed dt).

(** [dataTransfer.getData(format)]: the empty string when there is no entry. *)
Definition getData (format : jsstring) (dt : DataTransfer) : jsstring :=
  match List.find (λ it, bool_decide (it.1 = format)) (items dt) with
  | Some it => it.2
  | None => []
  end.

(** [dataTransfer.effectAllowed = effect]. *)
Definition set_effectAllowed (effect : jsstring) (dt : DataTransfer) : DataTransfer :=
  mkDataTransfer (items dt) effect.

(** An event handler may update the event and the page; [None] is the
    [TypeError] of dereferencing a null [dataTransfer]. *)
Definition Handler := DragEvent → World → option (DragEvent * World).

(** [ProjectItem.dragStartHandler]. *)
Definition dragStartHandler (this : ProjectItem) : Handler := λ event w,
  dt ← dataTransfer event;
  p ← objects w !! project this;
  let dt := setData (js "text/plain") (id p) dt in
  let dt := set_effectAllowed (js "move") dt in
  Some (mkDragEvent (Some dt), w).

(** The status a column stands for, as [dropHandler] computes it. *)
Definition status_of_type (ty : ListType) : ProjectStatus :=
  match ty with
  | active => Active
  | finished => Finished
  end.

(** [ProjectList.dropHandler]. *)
Definition dropHandler (this : ProjectList) : Handler := λ event w,
  dt ← dataTransfer event;
  let projectId := getData (js "text/plain") dt in
  Some (event, moveProject projectId (status_of_type (type this)) w).

(** ** Validation *)

Inductive Value := VString (s : jsstring) | VNumber (x : number).

Record Validatable := mkValidatable {
  value : Value;
  required : option bool;
  minLength : option number;
  maxLength : option number;
  min : option number;
  max : option number
}.

Section Validation.

(** [Number.prototype.toString] is the platform's. *)
Variable Number_toString : number → jsstring.

(** [value.toString()]. *)
Definition toString (v : Value) : jsstring :=
  match v with
  | VString s => s
  | VNumber x => Number_toString x
  end.

(** [validate]. *)
Definition validate (validatableInput : Validatable) : bool :=
  let isValid := true in
  let isValid :=
    match required validatableInput with
    | Some true =>
        isValid && negb (length (trim (toString (value validatableInput))) =? 0)
    | _ => isValid
    end in
  let isValid :=
    match minLength validatableInput, value validatableInput with
    | Some n, VString s => isValid && Number_ge (Number_of_nat (length s)) n
    | _, _ => isValid
    end in
  let isValid :=
    match maxLength validatableInput, value validatableInput with
    | Some n, VString s => isValid && Number_le (Number_of_nat (length s)) n
    | _, _ => isValid
    end in
  let isValid :=
    match min validatableInput, value validatableInput with
    | Some n, VNumber x => isValid && Number_ge x n
    | _, _ => isValid
    end in
  let isValid :=
    match max validatableInput, value validatableInput with
    | Some n, VNumber x => isValid && Number_le x n
    | _, _ => isValid
    end in
  isValid.

End Validation.

(** ** The page *)

(** [new ProjectList(type)]: the constructor empties [assignedProject] and
    [configure] registers the listener closure with the store. *)
Definition new_ProjectList (ty : ListType) (w : World) : loc * World :=
  let this := fresh (dom (components w)) in
  let w := mkWorld (objects w) (arrays w) (projects w) (listeners w)
                   (<[this := mkProjectList ty []]> (components w)) (calls w) in
  (this, addListener (ProjectListListener this) w).

(** The last lines of the program: the store singleton, then the two
    columns (the form holds no state of its own). *)
Definition app : World :=
  let projectState := getInstance in
  let '(activeProjectList, w) := new_ProjectList active projectState in
  let '(finishedProjectList, w) := new_ProjectList finished w in
  w.

(** The calls the page makes on the store after start-up. *)
Inductive Op :=
| AddListener (listenerFn : Listener)
| AddProject (e : Ambient) (title description : jsstring) (people : number)
| MoveProject (projectId : jsstring) (newStatus : ProjectStatus).

Definition step (w : World) (o : Op) : World :=
  match o with
  | AddListener listenerFn => addListener listenerFn w
  | AddProject e title description people => addProject e title description people w
  | MoveProject projectId newStatus => moveProject projectId newStatus w
  end.

Definition run (w : World) (ops : list Op) : World := foldl step w ops.

Definition is_move (o : Op) : bool :=
  match o with MoveProject _ _ => true | _ => false end.

(** ** Notions used by the statements *)

(** The projects of the store, in list order, read through the heap. *)
Definition project_list (w : World) : list (option Project) :=
  (λ l, objects w !! l) <$> elements_of (projects w) w.

(** What an observer reads through an array it holds. *)
Definition contents (a : loc) (w : World) : list (option Project) :=
  (λ l, objects w !! l) <$> elements_of a w.

(** The ids of the store's projects, in list order. *)
Definition project_ids (w : World) : list jsstring :=
  omap (λ l, id <$> objects w !! l) (elements_of (projects w) w).

(** Heap well-formedness: the internal array exists, arrays hold references
    to allocated projects only, and the arrays handed to listeners exist
    and are not the internal array. *)
Record wf (w : World) : Prop := mkWf {
  wf_projects : projects w ∈ dom (arrays w);
  wf_elements : ∀ a l, l ∈ elements_of a w → l ∈ dom (objects w);
  wf_calls : ∀ fn a, (fn, a) ∈ calls w → a ∈ dom (arrays w) ∧ a ≠ projects w
}.

(** [w'] continues [w] by one broadcast: every registered listener has been
    called once more, in registration order, each with an array that holds
    the current project list. *)
Definition one_broadcast (w w' : World) : Prop :=
  ∃ ds : list (Listener * loc),
    calls w' = calls w ++ ds
    ∧ ds.*1 = listeners w'
    ∧ ∀ a, a ∈ ds.*2 → arrays w' !! a = Some (elements_of (projects w') w').

(** The environment reads of the [addProject] calls of a run, in order. *)
Definition draws (ops : list Op) : list Ambient :=
  omap (λ o, match o with AddProject e _ _ _ => Some e | _ => None end) ops.

(** A call that changes the store: an [addProject], or a [moveProject]
    that finds a project whose status differs from the new one. *)
Definition broadcasts (w : World) (o : Op) : Prop :=
  match o with
  | AddListener _ => False
  | AddProject _ _ _ _ => True
  | MoveProject projectId newStatus =>
      ∃ l p, find_project projectId w = Some l ∧ objects w !! l = Some p
             ∧ status p ≠ newStatus
  end.

(** Two projects that differ at most in their status. *)
Definition same_but_status (p p' : Project) : Prop :=
  id p' = id p ∧ title p' = title p ∧ description p' = description p
  ∧ people p' = people p.

(** *** The validation rules, as the specification words them *)

Section Rules.

Variable Number_toString : number → jsstring.

(** required: the value's trimmed string form is non-empty. *)
Definition rule_required (v : Value) : Prop :=
  trim (toString Number_toString v) ≠ [].

(** minLength: a floor on the length of a string value. *)
Definition rule_minLength (n : number) (v : Value) : Prop :=
  match v with
  | VString s => Number_ge (Number_of_nat (length s)) n = true
  | VNumber _ => True
  end.

(** maxLength: a ceiling on the length of a string value. *)
Definition rule_maxLength (n : number) (v : Value) : Prop :=
  match v with
  | VString s => Number_le (Number_of_nat (length s)) n = true
  | VNumber _ => True
  end.

(** min: a floor on a numeric value. *)
Definition rule_min (n : number) (v : Value) : Prop :=
  match v with
  | VNumber x => Number_ge x n = true
  | VString _ => True
  end.

(** max: a ceiling on a numeric value. *)
Definition rule_max (n : number) (v : Value) : Prop :=
  match v with
  | VNumber x => Number_le x n = true
  | VString _ => True
  end.

(** Every rule specified on the input passes. *)
Definition all_rules_pass (i : Validatable) : Prop :=
  (required i = Some true → rule_required (value i))
  ∧ (∀ n, minLength i = Some n → rule_minLength n (value i))
  ∧ (∀ n, maxLength i = Some n → rule_maxLength n (value i))
  ∧ (∀ n, min i = Some n → rule_min n (value i))
  ∧ (∀ n, max i = Some n → rule_max n (value i)).

End Rules.

(** *** Example states *)

Definition twin_draw : Ambient :=
  mkAmbient (js "0.5") (js "2026-11-03T10:00:00.000Z").

(** Two projects created while [Math.random] and the clock answer the
    same. *)
Definition twins : World :=
  addProject twin_draw (js "B") (js "second") 2%float
    (addProject twin_draw (js "A") (js "first") 1%float app).

(** One project on the board. *)
Definition one_project : World :=
  addProject twin_draw (js "Build API") (js "Create REST endpoints") 3%float app.

(** ** The card of a project *)

(** The text a card shows: the heading, the line of assigned persons and
    the paragraph. *)
Record Card := mkCard {
  h2 : jsstring;
  h3 : jsstring;
  paragraph : jsstring
}.

Section Card.

Variable Number_toString : number → jsstring.

(** The getter [ProjectItem.persons]; [None] is the [TypeError] of a
    dangling [project]. *)
Definition persons (w : World) (this : ProjectItem) : option jsstring :=
  p ← objects w !! project this;
  if PrimFloat.eqb (people p) 1 then Some (js "1 person")
  else Some (Number_toString (people p) ++ js " persons").

(** [ProjectItem.renderContent]: the three [textContent] assignments. *)
Definition renderContent (w : World) (this : ProjectItem) : option Card :=
  p ← objects w !! project this;
  persons ← persons w this;
  Some (mkCard (title p) (persons ++ js "  assigned.") (description p)).

End Card.

(** [ProjectList.renderProjects]: one [ProjectItem] per assigned project,
    in order. *)
Definition renderProjects (this : ProjectList) : list ProjectItem :=
  mkProjectItem <$> assignedProject this.

(** ** The drop target's indicator *)

(** [classList.add(token)] and [classList.remove(token)] on the ordered
    token set of an element. *)
Definition classList_add (token : jsstring) (classList : list jsstring) : list jsstring :=
  if bool_decide (token ∈ classList) then classList else classList ++ [token].

Definition classList_remove (token : jsstring) (classList : list jsstring) : list jsstring :=
  List.filter (λ t, negb (bool_decide (t = token))) classList.

(** [dataTransfer.types]: the formats, in the order of the entries. *)
Definition types (dt : DataTransfer) : list jsstring := (items dt).*1.

(** [ProjectList.dragOverHandler], on the class list of the column's [ul]:
    the result says whether [event.preventDefault()] was called, and gives
    the class list. *)
Definition dragOverHandler (event : DragEvent) (listEl : list jsstring)
    : bool * list jsstring :=
  match dataTransfer event with
  | Some dt =>
      if bool_decide (types dt !! 0 = Some (js "text/plain"))
      then (true, classList_add (js "droppable") listEl)
      else (false, listEl)
  | None => (false, listEl)
  end.

(** [ProjectList.dragLeaveHandler]. *)
Definition dragLeaveHandler (listEl : list jsstring) : list jsstring :=
  classList_remove (js "droppable") listEl.

(** ** The form *)

(** A [ProjectForm] instance: the [value]s of its three input elements. *)
Record ProjectForm := mkProjectForm {
  titleInputEl : jsstring;
  descriptionInputEl : jsstring;
  peopleInputEl : jsstring
}.

(** The page: the store and columns, the form, and the alerts shown so
    far. *)
Record Page := mkPage {
  store : World;
  prjInput : ProjectForm;
  alerts : list jsstring
}.

(** What happens on the page: the user edits the three fields, submits
    the form, or drops something on a column. *)
Inductive UIEvent :=
| Input (title description people : jsstring)
| Submit (e : Ambient)
| Drop (column : loc) (event : DragEvent).

Section Form.

Variable Number_toString : number → jsstring.

(** The unary [+] on a string is the platform's. *)
Variable Number_of_string : jsstring → number.

(** The three rule sets of [gatherUserInput]. *)
Definition titleValidatable (enteredTitle : jsstring) : Validatable :=
  mkValidatable (VString enteredTitle) (Some true) None None None None.

Definition descriptionValidatable (enteredDescription : jsstring) : Validatable :=
  mkValidatable (VString enteredDescription) (Some true) (Some 5%float) None None None.

Definition peopleValidatable (enteredPeople : jsstring) : Validatable :=
  mkValidatable (VNumber (Number_of_string enteredPeople)) (Some true) None None
                (Some 1%float) (Some 5%float).

(** [ProjectForm.gatherUserInput]: [None] is the alert followed by the
    bare [return]. *)
Definition gatherUserInput (this : ProjectForm)
    : option (jsstring * jsstring * number) :=
  let enteredTitle := titleInputEl this in
  let enteredDescription := descriptionInputEl this in
  let enteredPeople := peopleInputEl this in
  if negb (validate Number_toString (titleValidatable enteredTitle))
     || negb (validate Number_toString (descriptionValidatable enteredDescription))
     || negb (validate Number_toString (peopleValidatable enteredPeople))
  then None
  else Some (enteredTitle, enteredDescription, Number_of_string enteredPeople).

(** [ProjectForm.clearInputs]. *)
Definition clearInputs (this : ProjectForm) : ProjectForm :=
  mkProjectForm [] [] [].

(** [ProjectForm.submitHandler]. *)
Definition submitHandler (e : Ambient) (pg : Page) : Page :=
  match gatherUserInput (prjInput pg) with
  | Some (title, desc, people) =>
      mkPage (addProject e title desc people (store pg))
             (clearInputs (prjInput pg)) (alerts pg)
  | None =>
      mkPage (store pg) (prjInput pg)
             (alerts pg ++ [js "Invalid Input, please try again!"])
  end.

(** The handler an event reaches. A drop on something that is not a
    column, or a handler that throws, leaves the page as it is. *)
Definition handle (pg : Page) (ev : UIEvent) : Page :=
  match ev with
  | Input title description people =>
      mkPage (store pg) (mkProjectForm title description people) (alerts pg)
  | Submit e => submitHandler e pg
  | Drop column event =>
      match this ← components (store pg) !! column;
            dropHandler this event (store pg) with
      | Some (_, w) => mkPage w (prjInput pg) (alerts pg)
      | None => pg
      end
  end.

Definition handle_all (pg : Page) (evs : list UIEvent) : Page :=
  foldl handle pg evs.

(** The rules of the form on a title, a description and a number of
    people. *)
Definition entries_pass (title description : jsstring) (people : number) : Prop :=
  rule_required Number_toString (VString title)
  ∧ rule_required Number_toString (VString description)
  ∧ rule_minLength 5%float (VString description)
  ∧ rule_required Number_toString (VNumber people)
  ∧ rule_min 1%float (VNumber people)
  ∧ rule_max 5%float (VNumber people).

(** A project that passes the rules of the form. *)
Definition passes_form_rules (p : Project) : Prop :=
  entries_pass (title p) (description p) (people p).

End Form.

(** The page when the script has run: empty inputs, no alert. *)
Definition start : Page := mkPage app (mkProjectForm [] [] []) [].

(** The columns show the store: every column holds the projects of its
    status, in the order of the store's list. *)
Definition in_sync (w : World) : Prop :=
  ∀ this c, components w !! this = Some c →
    assignedProject c
    = relevantProjects (status_at w) (type c) (elements_of (projects w) w).

(** Every column has its listener registered with the store. *)
Definition columns_registered (w : World) : Prop :=
  ∀ this, is_Some (components w !! this) → ProjectListListener this ∈ listeners w.

(** What the listener of a column makes of the column, given the list
    [els] it is handed and the heap it reads. *)
Definition refreshed (w : World) (els : list loc) (c : ProjectList) : ProjectList :=
  mkProjectList (type c) (relevantProjects (status_at w) (type c) els).

(** The invariant of the columns: they are in line with the store, their
    listeners are registered, and they are the two columns of the page. *)
Record columns_ok (w : World) : Prop := mkColumnsOk {
  ok_sync : in_sync w;
  ok_registered : columns_registered w;
  ok_active : type <$> components w !! 1%positive = Some active;
  ok_finished : type <$> components w !! 2%positive = Some finished;
  ok_two : ∀ this, is_Some (components w !! this) → this = 1%positive ∨ this = 2%positive
}.

(** *** Stand-ins for the platform's conversions, for the examples *)

(** A [Number.prototype.toString] that knows the number 3. *)
Definition toString_3 (x : number) : jsstring :=
  if PrimFloat.eqb x 3 then js "3" else js "NaN".

(** A unary [+] that knows the text "3". *)
Definition of_string_3 (s : jsstring) : number :=
  if bool_decide (s = js "3") then 3%float else nan.

(** The form filled in as in the specification's scenario. *)
Definition filled_in : Page :=
  mkPage app (mkProjectForm (js "Build API") (js "Create REST endpoints") (js "3")) [].

(** A drag event as the browser creates it: an empty transfer. *)
Definition fresh_drag : DragEvent :=
  mkDragEvent (Some (mkDataTransfer [] (js "uninitialized"))).

(** * Properties *)

(** ** Sanity checks on concrete inputs *)

Example trim_spaces : trim (js "  a b  ") = js "a b".
Proof. reflexivity. Qed.

Example trim_blank : trim (js "   ") = [].
Proof. reflexivity. Qed.

Example app_listeners :
  listeners app = [ProjectListListener 1; ProjectListListener 2]%positive.
Proof. reflexivity. Qed.

(** ** Validation *)

Section Validation_properties.
Variable Number_toString : number → jsstring.

Lemma nonempty_check (s : jsstring) :
  negb (length s =? 0) = true ↔ s ≠ [].
Proof.
  rewrite negb_true_iff, Nat.eqb_neq.
  destruct s; simpl; split; intros; try done; lia.
Qed.

Lemma validate_iff (i : Validatable) :
  validate Number_toString i = true ↔ all_rules_pass Number_toString i.
Proof.
  destruct i as [v r mn mx lo hi].
  unfold validate, all_rules_pass, rule_required; simpl.
  destruct r as [[]|], mn, mx, lo, hi, v; simpl;
    rewrite ?andb_true_iff, ?nonempty_check;
    (split;
     [ intros H; repeat split; intros; simplify_eq; tauto
     | intros (H1 & H2 & H3 & H4 & H5); repeat split; eauto ]).
Qed.

(** C6: [validate] returns true exactly when every rule specified on the
    input passes, and the five inputs of the specification validate as
    it says. *)
Theorem validate_all_rules :
  (∀ i, validate Number_toString i = true ↔ all_rules_pass Number_toString i)
  ∧ validate Number_toString
      (mkValidatable (VString (js "")) (Some true) None None None None) = false
  ∧ validate Number_toString
      (mkValidatable (VString (js "abcd")) (Some true) (Some 5%float) None None None)
    = false
  ∧ validate Number_toString
      (mkValidatable (VString (js "abcde")) (Some true) (Some 5%float) None None None)
    = true
  ∧ validate Number_toString
      (mkValidatable (VNumber 3) None None None (Some 1%float) (Some 5%float)) = true
  ∧ validate Number_toString
      (mkValidatable (VNumber 6) None None None (Some 1%float) (Some 5%float)) = false.
Proof.
  split; [exact validate_iff|].
  repeat split; reflexivity.
Qed.

(** C10: a rule is applied only to a value of the matching type: [min]
    and [max] never change the result on a string, [minLength] and
    [maxLength] never change it on a number. *)
Theorem validate_type_gated :
  (∀ s r mn mx lo hi,
      validate Number_toString (mkValidatable (VString s) r mn mx lo hi)
      = validate Number_toString (mkValidatable (VString s) r mn mx None None))
  ∧ (∀ s, validate Number_toString
            (mkValidatable (VString s) None None None (Some 1%float) (Some 5%float))
          = true)
  ∧ (∀ x r mn mx lo hi,
      validate Number_toString (mkValidatable (VNumber x) r mn mx lo hi)
      = validate Number_toString (mkValidatable (VNumber x) r None None lo hi)).
Proof.
  repeat split.
  - intros s r mn mx lo hi. unfold validate; simpl. by destruct lo, hi.
  - intros x r mn mx lo hi. unfold validate; simpl. by destruct mn, mx.
Qed.

End Validation_properties.

(** ** Column filtering *)

Section Column_filter.
Context {A : Type} (status_of : A → ProjectStatus).

Lemma relevant_active st : relevant active st = true ↔ st = Active.
Proof. apply bool_decide_eq_true. Qed.

Lemma relevant_finished st : relevant finished st = true ↔ st = Finished.
Proof. apply bool_decide_eq_true. Qed.

Lemma relevant_status_of_type ty st :
  relevant ty st = true ↔ st = status_of_type ty.
Proof. destruct ty; apply bool_decide_eq_true. Qed.

Lemma relevantProjects_elem ty (snapshot : list A) prj :
  prj ∈ relevantProjects status_of ty snapshot
  ↔ prj ∈ snapshot ∧ status_of prj = status_of_type ty.
Proof.
  unfold relevantProjects.
  rewrite !list_elem_of_In, filter_In, relevant_status_of_type. tauto.
Qed.

Lemma relevantProjects_sublist ty (snapshot : list A) :
  relevantProjects status_of ty snapshot `sublist_of` snapshot.
Proof.
  induction snapshot as [|prj l IH]; simpl; [constructor|].
  destruct (relevant ty (status_of prj)); by constructor.
Qed.

Lemma relevantProjects_union (snapshot : list A) :
  relevantProjects status_of active snapshot
    ++ relevantProjects status_of finished snapshot ≡ₚ snapshot.
Proof.
  induction snapshot as [|prj l IH]; simpl; [done|].
  destruct (status_of prj); simpl.
  - by rewrite IH.
  - by rewrite <- Permutation_middle, IH.
Qed.

(** C4: the two column filters split every snapshot in two disjoint
    parts whose union (as multisets) is the snapshot, each in the order
    of the snapshot. *)
Theorem column_filter_partition (snapshot : list A) :
  let act := relevantProjects status_of active snapshot in
  let fin := relevantProjects status_of finished snapshot in
  (∀ prj, prj ∈ act → prj ∈ fin → False)
  ∧ act ++ fin ≡ₚ snapshot
  ∧ act `sublist_of` snapshot
  ∧ fin `sublist_of` snapshot
  ∧ (∀ prj, prj ∈ act ↔ prj ∈ snapshot ∧ status_of prj = Active)
  ∧ (∀ prj, prj ∈ fin ↔ prj ∈ snapshot ∧ status_of prj = Finished).
Proof.
  intros act fin. split; [|split; [|split; [|split; [|split]]]].
  - intros prj [_ Ha]%relevantProjects_elem [_ Hf]%relevantProjects_elem.
    simpl in *. congruence.
  - apply relevantProjects_union.
  - apply relevantProjects_sublist.
  - apply relevantProjects_sublist.
  - intros prj. apply relevantProjects_elem.
  - intros prj. apply relevantProjects_elem.
Qed.

End Column_filter.

(** ** The store *)

Section Broadcast.
Implicit Types (w : World) (fn : Listener) (a l : loc).

Lemma elements_of_lookup a w els :
  arrays w !! a = Some els → elements_of a w = els.
Proof. unfold elements_of. by intros ->. Qed.

Lemma call_objects fn a w : objects (call fn a w) = objects w.
Proof. by destruct fn. Qed.

Lemma call_arrays fn a w : arrays (call fn a w) = arrays w.
Proof. by destruct fn. Qed.

Lemma call_projects fn a w : projects (call fn a w) = projects w.
Proof. by destruct fn. Qed.

Lemma call_listeners fn a w : listeners (call fn a w) = listeners w.
Proof. by destruct fn. Qed.

Lemma call_calls fn a w : calls (call fn a w) = calls w ++ [(fn, a)].
Proof. by destruct fn. Qed.

(** One turn of the loop allocates one array, a copy of the internal one,
    and hands it to the listener. *)
Lemma notify_spec w fn :
  let a := fresh (dom (arrays w)) in
  let w' := notify w fn in
  (a ∉ dom (arrays w))
  ∧ objects w' = objects w
  ∧ projects w' = projects w
  ∧ listeners w' = listeners w
  ∧ arrays w' = <[a := elements_of (projects w) w]> (arrays w)
  ∧ calls w' = calls w ++ [(fn, a)].
Proof.
  intros a w'. subst a w'. unfold notify, slice.
  rewrite call_objects, call_arrays, call_projects, call_listeners, call_calls.
  simpl. split; [apply is_fresh | done].
Qed.

Lemma notify_elements_of_projects w fn :
  elements_of (projects w) (notify w fn) = elements_of (projects w) w.
Proof.
  destruct (notify_spec w fn) as (Hfresh & _ & _ & _ & Harr & _).
  unfold elements_of at 1. rewrite Harr.
  destruct (decide (fresh (dom (arrays w)) = projects w)) as [<-|Hne].
  - by rewrite lookup_insert_eq.
  - by rewrite lookup_insert_ne.
Qed.

(** The loop of [updateListeners] over a list of listeners: the heap of
    projects and the store's fields stay as they are, every listener is
    called once, in order, each with an array of its own that copies the
    internal one. *)
Lemma broadcast_spec fns : ∀ w,
  let w' := foldl notify w fns in
  objects w' = objects w
  ∧ projects w' = projects w
  ∧ listeners w' = listeners w
  ∧ arrays w ⊆ arrays w'
  ∧ elements_of (projects w) w' = elements_of (projects w) w
  ∧ (∀ a, arrays w' !! a = arrays w !! a
          ∨ (a ∉ dom (arrays w))
            ∧ arrays w' !! a = Some (elements_of (projects w) w))
  ∧ ∃ ds, calls w' = calls w ++ ds
          ∧ ds.*1 = fns
          ∧ NoDup ds.*2
          ∧ ∀ a, a ∈ ds.*2 →
                 (a ∉ dom (arrays w))
                 ∧ arrays w' !! a = Some (elements_of (projects w) w).
Proof.
  induction fns as [|fn fns IH]; intros w; simpl.
  - do 5 (split; [done|]). split; [by left|].
    exists []. rewrite app_nil_r. do 2 (split; [done|]).
    split; [apply NoDup_nil_2|]. intros a Ha. by apply elem_of_nil in Ha.
  - destruct (notify_spec w fn) as (Hfresh & Hobj & Hprj & Hlis & Harr & Hcalls).
    pose proof (notify_elements_of_projects w fn) as Hels.
    destruct (IH (notify w fn)) as (IHobj & IHprj & IHlis & IHsub & IHels & IHarr & ds & IHcalls & IHfst & IHnd & IHds).
    rewrite Hprj, Hels in *.
    set (a0 := fresh (dom (arrays w))) in *.
    assert (Hsub : arrays w ⊆ arrays (notify w fn)).
    { rewrite Harr. apply insert_subseteq. by apply not_elem_of_dom. }
    assert (Ha0 : arrays (foldl notify (notify w fn) fns) !! a0
                  = Some (elements_of (projects w) w)).
    { eapply lookup_weaken; [|exact IHsub]. rewrite Harr. apply lookup_insert_eq. }
    assert (Hdom : ∀ a, a ∉ dom (arrays (notify w fn)) → (a ∉ dom (arrays w)) ∧ a ≠ a0).
    { intros a. rewrite Harr, dom_insert_L, not_elem_of_union, not_elem_of_singleton.
      tauto. }
    split; [congruence|]. split; [congruence|]. split; [congruence|].
    split; [by etrans|]. split; [done|]. split.
    { intros a. destruct (IHarr a) as [Heq|[Hnew Heq]].
      - rewrite Heq, Harr. destruct (decide (a = a0)) as [->|Hne].
        + right. by rewrite lookup_insert_eq.
        + left. by rewrite lookup_insert_ne.
      - right. split; [by apply Hdom|done]. }
    exists ((fn, a0) :: ds). rewrite Hcalls in IHcalls.
    split; [by rewrite IHcalls, <- app_assoc|].
    split; [by rewrite fmap_cons, IHfst|]. split.
    { simpl. constructor; [|done]. intros Hin.
      destruct (IHds _ Hin) as [Hnew _]. by destruct (Hdom _ Hnew). }
    intros a [->|Hin]%elem_of_cons; [done|].
    destruct (IHds _ Hin) as [Hnew Heq]. split; [by apply Hdom|done].
Qed.

End Broadcast.

Section Store.
Implicit Types (w : World) (fn : Listener) (a l : loc) (p : Project).

Lemma updateListeners_one_broadcast w : one_broadcast w (updateListeners w).
Proof.
  unfold updateListeners.
  destruct (broadcast_spec (listeners w) w)
    as (_ & Hprj & Hlis & _ & Hels & _ & ds & Hcalls & Hfst & _ & Hds).
  exists ds. rewrite Hlis, Hprj, Hels. split; [done|]. split; [done|].
  intros a Ha. by destruct (Hds a Ha).
Qed.

Lemma addProject_unfold e t d n w :
  addProject e t d n w = updateListeners (pushed e t d n w).
Proof. reflexivity. Qed.

Lemma pushed_elements_of e t d n w :
  elements_of (projects w) (pushed e t d n w)
  = elements_of (projects w) w ++ [fresh (dom (objects w))].
Proof. unfold elements_of at 1. simpl. by rewrite lookup_insert_eq. Qed.

Lemma moveProject_found projectId s w l p :
  find_project projectId w = Some l → objects w !! l = Some p → status p ≠ s →
  moveProject projectId s w = updateListeners (moved l p s w).
Proof.
  intros Hfind Hobj Hne. unfold moveProject. rewrite Hfind, Hobj.
  by rewrite bool_decide_eq_true_2.
Qed.

Lemma find_project_None projectId w :
  (∀ l p, l ∈ elements_of (projects w) w → objects w !! l = Some p → id p ≠ projectId) →
  find_project projectId w = None.
Proof.
  intros Hnone. unfold find_project.
  destruct (find _ _) as [l|] eqn:Hfind; [|done].
  apply find_some in Hfind as [Hin Hid]. apply list_elem_of_In in Hin.
  destruct (objects w !! l) as [p|] eqn:Hobj; [|done].
  apply bool_decide_eq_true in Hid. by destruct (Hnone l p).
Qed.

(** [find] returns the first element that satisfies the test. *)
Lemma find_first {A} (f : A → bool) (els : list A) : ∀ i x,
  els !! i = Some x → f x = true →
  (∀ j y, j < i → els !! j = Some y → f y = false) →
  find f els = Some x.
Proof.
  induction els as [|y els IH]; intros i x Hi Hx Hbefore; [done|].
  destruct i as [|i]; simpl in *.
  - simplify_eq. by rewrite Hx.
  - rewrite (Hbefore 0 y); [|lia|done].
    apply (IH i); [done..|].
    intros j z Hj Hz. apply (Hbefore (S j)); [lia|done].
Qed.

Lemma find_project_first w i l p :
  elements_of (projects w) w !! i = Some l → objects w !! l = Some p →
  (∀ j l' p', j < i → elements_of (projects w) w !! j = Some l' →
              objects w !! l' = Some p' → id p' ≠ id p) →
  find_project (id p) w = Some l.
Proof.
  intros Hi Hobj Hbefore. unfold find_project.
  apply (find_first _ _ i); [done|by rewrite Hobj, bool_decide_eq_true_2|].
  intros j l' Hj Hl'. destruct (objects w !! l') as [p'|] eqn:Hobj'; [|done].
  apply bool_decide_eq_false_2. by apply (Hbefore j l').
Qed.

(** C1: [moveProject] on an id that no project of the store has, or to the
    status the project found already has, returns the state it was given:
    the project list, the heap and the record of listener calls are the
    same, and the call is total, so there is nothing to raise. *)
Theorem moveProject_noop projectId s w :
  (∀ l p, l ∈ elements_of (projects w) w → objects w !! l = Some p →
          id p ≠ projectId)
  ∨ (∃ l p, find_project projectId w = Some l ∧ objects w !! l = Some p
            ∧ status p = s) →
  moveProject projectId s w = w
  ∧ project_list (moveProject projectId s w) = project_list w
  ∧ calls (moveProject projectId s w) = calls w.
Proof.
  intros Hcase.
  assert (Hsame : moveProject projectId s w = w); [|by rewrite Hsame].
  destruct Hcase as [Hnone|(l & p & Hfind & Hobj & Hst)].
  - unfold moveProject. by rewrite find_project_None.
  - unfold moveProject. rewrite Hfind, Hobj.
    by rewrite bool_decide_eq_false_2 by (by intros []).
Qed.

(** The effect of [addProject] on the heap, the internal list and the
    record of listener calls. *)
Lemma addProject_effect e title description people w :
  let w' := addProject e title description people w in
  let newProject := fresh (dom (objects w)) in
  (newProject ∉ dom (objects w))
  ∧ objects w'
    = <[newProject := mkProject (newId e) title description people Active]> (objects w)
  ∧ projects w' = projects w
  ∧ elements_of (projects w') w' = elements_of (projects w) w ++ [newProject]
  ∧ length (project_list w') = S (length (project_list w))
  ∧ last (project_list w')
    = Some (Some (mkProject (newId e) title description people Active))
  ∧ one_broadcast w w'
  ∧ listeners w' = listeners w.
Proof.
  intros w' newProject. subst w'. rewrite addProject_unfold.
  set (w1 := pushed e title description people w).
  destruct (broadcast_spec (listeners w1) w1)
    as (Hobj & Hprj & Hlis & _ & Hels & _).
  fold (updateListeners w1) in *.
  change (projects w1) with (projects w) in *.
  change (listeners w1) with (listeners w) in *.
  assert (Helems : elements_of (projects (updateListeners w1)) (updateListeners w1)
                   = elements_of (projects w) w ++ [newProject]).
  { rewrite Hprj, Hels. apply pushed_elements_of. }
  split; [apply is_fresh|]. split; [by rewrite Hobj|]. split; [by rewrite Hprj|].
  split; [done|]. split.
  { unfold project_list. rewrite Helems, !length_fmap, length_app. simpl. lia. }
  split.
  { unfold project_list. rewrite Helems, fmap_app. simpl.
    rewrite last_snoc, Hobj. simpl. by rewrite lookup_insert_eq. }
  split; [apply (updateListeners_one_broadcast w1)|done].
Qed.

(** C3: [addProject] allocates one project, Active and with the values
    given, appends it to the internal list, whose length grows by one, and
    broadcasts once. *)
Theorem addProject_appends e title description people w :
  let w' := addProject e title description people w in
  let newProject := fresh (dom (objects w)) in
  (newProject ∉ dom (objects w))
  ∧ objects w'
    = <[newProject := mkProject (newId e) title description people Active]> (objects w)
  ∧ projects w' = projects w
  ∧ elements_of (projects w') w' = elements_of (projects w) w ++ [newProject]
  ∧ length (project_list w') = S (length (project_list w))
  ∧ last (project_list w')
    = Some (Some (mkProject (newId e) title description people Active))
  ∧ one_broadcast w w'
  ∧ listeners w' = listeners w.
Proof. apply addProject_effect. Qed.

(** Dropping the card of an Active project on the Active column. *)
Lemma moveProject_noop_witness :
  moveProject (newId twin_draw) Active one_project = one_project.
Proof.
  apply (moveProject_noop (newId twin_draw) Active one_project).
  right. exists 1%positive,
    (mkProject (newId twin_draw) (js "Build API") (js "Create REST endpoints")
               3%float Active).
  split; [reflexivity|]. split; reflexivity.
Defined.

End Store.

(** ** Moving a project, and the broadcast *)

Section Moves.
Implicit Types (w : World) (fn : Listener) (a l : loc) (p : Project).

Lemma moved_objects_after l p s w :
  objects (updateListeners (moved l p s w)) = <[l := set_status s p]> (objects w).
Proof.
  unfold updateListeners.
  by destruct (broadcast_spec (listeners (moved l p s w)) (moved l p s w)) as (-> & _).
Qed.

Lemma moved_one_broadcast l p s w : one_broadcast w (updateListeners (moved l p s w)).
Proof. apply (updateListeners_one_broadcast (moved l p s w)). Qed.

(** C2, amended: [moveProject(p.id, s)] with [s] other than [p]'s status,
    for the first project [p] of the list that has its id, sets the
    status of that project to [s]; its other fields, every other project,
    the internal list and its order stay as they were. *)
Theorem moveProject_changes_first w i l p s :
  elements_of (projects w) w !! i = Some l →
  objects w !! l = Some p →
  (∀ j l' p', j < i → elements_of (projects w) w !! j = Some l' →
              objects w !! l' = Some p' → id p' ≠ id p) →
  status p ≠ s →
  let w' := moveProject (id p) s w in
  (∃ p', objects w' !! l = Some p' ∧ status p' = s ∧ same_but_status p p')
  ∧ (∀ l', l' ≠ l → objects w' !! l' = objects w !! l')
  ∧ projects w' = projects w
  ∧ elements_of (projects w') w' = elements_of (projects w) w
  ∧ one_broadcast w w'.
Proof.
  intros Hi Hobj Hfirst Hne w'. subst w'.
  rewrite (moveProject_found (id p) s w l p) by eauto using find_project_first.
  set (w1 := moved l p s w).
  destruct (broadcast_spec (listeners w1) w1) as (Hobjs & Hprj & _ & _ & Hels & _).
  fold (updateListeners w1) in *. change (projects w1) with (projects w) in *.
  split.
  { exists (set_status s p). rewrite Hobjs. simpl. by rewrite lookup_insert_eq. }
  split.
  { intros l' Hl'. rewrite Hobjs. simpl. by rewrite lookup_insert_ne. }
  split; [done|]. split; [by rewrite Hprj, Hels|].
  apply moved_one_broadcast.
Qed.

Lemma moveProject_changes_first_witness :
  ∃ p', objects (moveProject (newId twin_draw) Finished one_project) !! 1%positive
        = Some p' ∧ status p' = Finished.
Proof.
  destruct (moveProject_changes_first one_project 0 1%positive
              (mkProject (newId twin_draw) (js "Build API")
                         (js "Create REST endpoints") 3%float Active) Finished)
    as ((p' & Hp' & Hst & _) & _).
  - reflexivity.
  - reflexivity.
  - intros j l' p' Hj. lia.
  - discriminate.
  - exists p'. split; [exact Hp'|exact Hst].
Defined.

(** C2 as stated fails on two projects with the same id: asked to move
    the second one, [moveProject] leaves it as it is and changes the
    first. *)
Lemma moveProject_second_twin :
  ∃ l p, l ∈ elements_of (projects twins) twins
         ∧ objects twins !! l = Some p
         ∧ status p ≠ Finished
         ∧ objects (moveProject (id p) Finished twins) !! l = Some p
         ∧ ∃ l' p', l' ≠ l ∧ objects twins !! l' = Some p'
                    ∧ objects (moveProject (id p) Finished twins) !! l' ≠ Some p'.
Proof.
  exists 2%positive,
    (mkProject (newId twin_draw) (js "B") (js "second") 2%float Active).
  split; [vm_compute; apply list_elem_of_In; simpl; tauto|].
  split; [reflexivity|]. split; [discriminate|]. split; [reflexivity|].
  exists 1%positive,
    (mkProject (newId twin_draw) (js "A") (js "first") 1%float Active).
  split; [discriminate|]. split; [reflexivity|].
  vm_compute. discriminate.
Qed.

Lemma listeners_run_AddListener fns : ∀ w,
  listeners (run w (AddListener <$> fns)) = listeners w ++ fns.
Proof.
  induction fns as [|fn fns IH]; intros w; simpl.
  - by rewrite app_nil_r.
  - rewrite IH. simpl. by rewrite <- app_assoc.
Qed.

Lemma step_one_broadcast w o : broadcasts w o → one_broadcast w (step w o).
Proof.
  destruct o as [fn|e t d n|projectId s]; simpl.
  - done.
  - intros _. rewrite addProject_unfold.
    apply (updateListeners_one_broadcast (pushed e t d n w)).
  - intros (l & p & Hfind & Hobj & Hne).
    rewrite (moveProject_found projectId s w l p) by done.
    apply moved_one_broadcast.
Qed.

(** C8: after the observers [fns] have been registered in that order, a
    call that changes the store ([addProject], or a [moveProject] that
    changes a status) calls every registered observer once, the earlier
    registered first, each with an array that holds the full current
    list. *)
Theorem broadcast_in_registration_order w0 fns o :
  let w := run w0 (AddListener <$> fns) in
  broadcasts w o →
  ∃ ds : list (Listener * loc),
    calls (step w o) = calls w ++ ds
    ∧ ds.*1 = listeners w0 ++ fns
    ∧ length ds = length (listeners w0) + length fns
    ∧ ∀ a, a ∈ ds.*2 →
           arrays (step w o) !! a
           = Some (elements_of (projects (step w o)) (step w o))
           ∧ contents a (step w o) = project_list (step w o).
Proof.
  intros w Hb. destruct (step_one_broadcast w o Hb) as (ds & Hcalls & Hfst & Hds).
  assert (Hlis : listeners (step w o) = listeners w0 ++ fns).
  { subst w. rewrite <- listeners_run_AddListener.
    destruct o as [fn|e t d n|projectId s]; simpl in *; [done|..].
    - by destruct (addProject_effect e t d n (run w0 (AddListener <$> fns)))
        as (_ & _ & _ & _ & _ & _ & _ & ->).
    - destruct Hb as (l & p & Hfind & Hobj & Hne).
      rewrite (moveProject_found projectId s _ l p) by done.
      unfold updateListeners.
      by destruct (broadcast_spec (listeners (moved l p s (run w0 (AddListener <$> fns))))
                     (moved l p s (run w0 (AddListener <$> fns)))) as (_ & _ & -> & _). }
  exists ds. split; [done|]. split; [congruence|]. split.
  { rewrite <- length_app, <- Hlis, <- Hfst. by rewrite length_fmap. }
  intros a Ha. split; [by apply Hds|].
  unfold contents, project_list. by rewrite (elements_of_lookup _ _ _ (Hds a Ha)).
Qed.

Lemma broadcast_in_registration_order_witness :
  let w := run getInstance
               (AddListener <$> [ProjectListListener 1; ProjectListListener 2]%positive) in
  ∃ ds : list (Listener * loc),
    calls (addProject twin_draw (js "A") (js "first") 1%float w) = calls w ++ ds
    ∧ ds.*1 = [ProjectListListener 1; ProjectListListener 2]%positive.
Proof.
  intros w.
  destruct (broadcast_in_registration_order getInstance
              [ProjectListListener 1; ProjectListListener 2]%positive
              (AddProject twin_draw (js "A") (js "first") 1%float))
    as (ds & Hcalls & Hfst & _).
  - exact I.
  - exists ds. split; [exact Hcalls|exact Hfst].
Defined.

End Moves.

(** ** Heap invariant and frame *)

Section Invariant.
Implicit Types (w : World) (fn : Listener) (a l : loc) (p : Project).

Lemma wf_getInstance : wf getInstance.
Proof.
  split.
  - apply elem_of_dom. by exists [].
  - intros a l. unfold elements_of, getInstance; simpl.
    destruct (decide (a = 1%positive)) as [->|Hne].
    + rewrite lookup_singleton_eq. simpl. by intros ?%elem_of_nil.
    + rewrite lookup_singleton_ne by done. simpl. by intros ?%elem_of_nil.
  - intros fn a ?%elem_of_nil. done.
Qed.

(** Registering listeners and creating columns leave the heap alone. *)
Lemma wf_same_heap w w' :
  objects w' = objects w → arrays w' = arrays w → projects w' = projects w →
  calls w' = calls w → wf w → wf w'.
Proof.
  intros Hobj Harr Hprj Hcalls [H1 H2 H3].
  split; unfold elements_of in *; rewrite ?Hobj, ?Harr, ?Hprj, ?Hcalls; done.
Qed.

Lemma wf_app : wf app.
Proof. by apply (wf_same_heap getInstance), wf_getInstance. Qed.

Lemma wf_updateListeners w : wf w → wf (updateListeners w).
Proof.
  intros [Hprj Hels Hcalls]. unfold updateListeners.
  destruct (broadcast_spec (listeners w) w)
    as (Hobj' & Hprj' & _ & Hsub & _ & Harr & ds & Hcalls' & _ & _ & Hds).
  set (w' := foldl notify w (listeners w)) in *.
  assert (Hdom : ∀ a, a ∈ dom (arrays w) → a ∈ dom (arrays w')).
  { intros a. by apply subseteq_dom. }
  split.
  - rewrite Hprj'. by apply Hdom.
  - intros a l. rewrite Hobj'. unfold elements_of.
    destruct (Harr a) as [->|[_ ->]]; [apply Hels|]. apply (Hels (projects w)).
  - intros fn a. rewrite Hcalls', Hprj', elem_of_app. intros [Hold|Hnew].
    + destruct (Hcalls fn a Hold). split; [by apply Hdom|done].
    + assert (Ha : a ∈ ds.*2).
      { apply list_elem_of_fmap. by exists (fn, a). }
      destruct (Hds a Ha) as [Hfresh Hlook]. split.
      * apply elem_of_dom. by eexists.
      * by intros ->.
Qed.

Lemma wf_pushed e t d n w : wf w → wf (pushed e t d n w).
Proof.
  intros [Hprj Hels Hcalls]. split; simpl.
  - rewrite dom_insert_L. apply elem_of_union. by left; apply elem_of_singleton.
  - intros a l. unfold elements_of; simpl. rewrite dom_insert_L, elem_of_union.
    destruct (decide (a = projects w)) as [->|Hne].
    + rewrite lookup_insert_eq. simpl. rewrite elem_of_app, list_elem_of_singleton.
      intros [Hold| ->]; [right; by apply (Hels (projects w))|left; by apply elem_of_singleton].
    + rewrite lookup_insert_ne by done. intros Hl. right. by apply (Hels a).
  - intros fn a Hin. destruct (Hcalls fn a Hin). split; [|done].
    rewrite dom_insert_L. apply elem_of_union. by right.
Qed.

Lemma wf_moved l p s w : wf w → wf (moved l p s w).
Proof.
  intros [Hprj Hels Hcalls]. split; simpl; [done| |done].
  intros a l' Hl'. rewrite dom_insert_L. apply elem_of_union. right.
  by apply (Hels a).
Qed.

Lemma moveProject_cases projectId s w :
  moveProject projectId s w = w
  ∨ ∃ l p, find_project projectId w = Some l ∧ objects w !! l = Some p
           ∧ status p ≠ s
           ∧ moveProject projectId s w = updateListeners (moved l p s w).
Proof.
  unfold moveProject.
  destruct (find_project projectId w) as [l|] eqn:Hfind; [|by left].
  destruct (objects w !! l) as [p|] eqn:Hobj; [|by left].
  destruct (decide (status p ≠ s)) as [Hne|Heq].
  - right. exists l, p. by rewrite bool_decide_eq_true_2.
  - left. by rewrite bool_decide_eq_false_2.
Qed.

Lemma wf_step w o : wf w → wf (step w o).
Proof.
  intros Hwf. destruct o as [fn|e t d n|projectId s]; simpl.
  - by apply (wf_same_heap w).
  - rewrite addProject_unfold. by apply wf_updateListeners, wf_pushed.
  - destruct (moveProject_cases projectId s w) as [->|(l & p & _ & _ & _ & ->)]; [done|].
    by apply wf_updateListeners, wf_moved.
Qed.

Lemma wf_run ops : ∀ w, wf w → wf (run w ops).
Proof.
  induction ops as [|o ops IH]; intros w Hwf; simpl; [done|].
  by apply IH, wf_step.
Qed.

Global Instance same_but_status_refl : Reflexive same_but_status.
Proof. by intros p. Qed.

Global Instance same_but_status_trans : Transitive same_but_status.
Proof.
  intros p1 p2 p3 (? & ? & ? & ?) (? & ? & ? & ?).
  repeat split; congruence.
Qed.

(** What a broadcast leaves alone. *)
Lemma updateListeners_frame w :
  objects (updateListeners w) = objects w
  ∧ projects (updateListeners w) = projects w
  ∧ elements_of (projects w) (updateListeners w) = elements_of (projects w) w
  ∧ (∃ ds, calls (updateListeners w) = calls w ++ ds)
  ∧ (∀ a, a ∈ dom (arrays w) → arrays (updateListeners w) !! a = arrays w !! a).
Proof.
  unfold updateListeners.
  destruct (broadcast_spec (listeners w) w)
    as (Hobj & Hprj & _ & Hsub & Hels & _ & ds & Hcalls & _).
  do 3 (split; [done|]). split; [by exists ds|].
  intros a [els Ha]%elem_of_dom. rewrite Ha. by eapply lookup_weaken.
Qed.

(** What one call on the store leaves alone: the arrays other than the
    internal one, and, in every project, all fields but the status; the
    status too unless the call is a [moveProject]. *)
Lemma step_frame w o :
  wf w →
  projects (step w o) = projects w
  ∧ (∃ ds, calls (step w o) = calls w ++ ds)
  ∧ (∀ a, a ∈ dom (arrays w) → a ≠ projects w →
          arrays (step w o) !! a = arrays w !! a)
  ∧ (∀ l p, objects w !! l = Some p →
            ∃ p', objects (step w o) !! l = Some p' ∧ same_but_status p p'
                  ∧ (is_move o = false → p' = p)).
Proof.
  intros Hwf. destruct o as [fn|e t d n|projectId s]; simpl.
  - split; [done|]. split; [by exists []; rewrite app_nil_r|]. split; [done|].
    intros l p Hl. by exists p.
  - rewrite addProject_unfold.
    destruct (updateListeners_frame (pushed e t d n w))
      as (Hobj & Hprj & _ & Hcalls & Harr).
    split; [done|]. split; [done|]. split.
    + intros a Ha Hne. rewrite Harr; simpl.
      * by rewrite lookup_insert_ne.
      * rewrite dom_insert_L. apply elem_of_union. by right.
    + intros l p Hl. exists p. rewrite Hobj. simpl. split; [|done].
      rewrite lookup_insert_ne; [done|]. intros <-.
      apply (is_fresh (dom (objects w))). apply elem_of_dom. by eexists.
  - destruct (moveProject_cases projectId s w) as [->|(l & p & _ & Hobj & _ & ->)].
    { split; [done|]. split; [by exists []; rewrite app_nil_r|]. split; [done|].
      intros l p Hl. by exists p. }
    destruct (updateListeners_frame (moved l p s w))
      as (Hobj' & Hprj & _ & Hcalls & Harr).
    split; [done|]. split; [done|]. split.
    + intros a Ha Hne. by rewrite Harr.
    + intros l' p' Hl'. rewrite Hobj'. simpl.
      destruct (decide (l' = l)) as [->|Hne].
      * exists (set_status s p). rewrite lookup_insert_eq. simplify_eq.
        by repeat split.
      * exists p'. by rewrite lookup_insert_ne.
Qed.

Lemma run_frame ops : ∀ w,
  wf w →
  projects (run w ops) = projects w
  ∧ (∃ ds, calls (run w ops) = calls w ++ ds)
  ∧ (∀ a, a ∈ dom (arrays w) → a ≠ projects w →
          arrays (run w ops) !! a = arrays w !! a)
  ∧ (∀ l p, objects w !! l = Some p →
            ∃ p', objects (run w ops) !! l = Some p' ∧ same_but_status p p'
                  ∧ (forallb (λ o, negb (is_move o)) ops = true → p' = p)).
Proof.
  induction ops as [|o ops IH]; intros w Hwf; simpl.
  - split; [done|]. split; [by exists []; rewrite app_nil_r|]. split; [done|].
    intros l p Hl. by exists p.
  - destruct (step_frame w o Hwf) as (Hprj & [ds Hcalls] & Harr & Hobj).
    destruct (IH (step w o) (wf_step w o Hwf)) as (IHprj & [ds' IHcalls] & IHarr & IHobj).
    split; [congruence|]. split.
    { exists (ds ++ ds'). by rewrite IHcalls, Hcalls, app_assoc. }
    split.
    + intros a Ha Hne. rewrite IHarr, Harr; [done..| |congruence].
      apply elem_of_dom. rewrite Harr by done. by apply elem_of_dom.
    + intros l p Hl. destruct (Hobj l p Hl) as (p1 & Hl1 & Hsame1 & Heq1).
      destruct (IHobj l p1 Hl1) as (p2 & Hl2 & Hsame2 & Heq2).
      exists p2. split; [done|]. split; [by etrans|].
      intros [Ho Hops]%andb_true_iff. apply negb_true_iff in Ho.
      by rewrite Heq2, Heq1.
Qed.

End Invariant.

(** ** Snapshots handed to observers *)

Section Snapshots.
Implicit Types (w : World) (fn : Listener) (a l : loc) (p : Project).

(** C5, amended: the array handed to an observer is a copy of the list,
    not the store's internal array, and no later call on the store changes
    which projects it holds or their order; the projects themselves are
    the store's objects, so a later call can change their status, and
    nothing else of them. Calls other than [moveProject] leave the
    contents of the array as they were. *)
Theorem snapshot_is_shallow_copy ops fn a later :
  let w := run app ops in
  let w' := run w later in
  (fn, a) ∈ calls w →
  a ≠ projects w
  ∧ a ≠ projects w'
  ∧ (fn, a) ∈ calls w'
  ∧ elements_of a w' = elements_of a w
  ∧ Forall2 (λ x x', ∃ p p', x = Some p ∧ x' = Some p' ∧ same_but_status p p')
            (contents a w) (contents a w')
  ∧ (forallb (λ o, negb (is_move o)) later = true →
     contents a w' = contents a w).
Proof.
  intros w w' Hin.
  assert (Hwf : wf w) by apply wf_run, wf_app.
  destruct (wf_calls w Hwf fn a Hin) as [Hdom Hne].
  destruct (run_frame later w Hwf) as (Hprj & [ds Hcalls] & Harr & Hobj).
  fold w' in Hprj, Hcalls, Harr, Hobj.
  assert (Hels : elements_of a w' = elements_of a w).
  { unfold elements_of. by rewrite Harr. }
  split; [done|]. split; [congruence|]. split.
  { rewrite Hcalls. apply elem_of_app. by left. }
  split; [done|]. unfold contents. rewrite Hels. split.
  - apply Forall2_fmap, Forall_Forall2_diag, Forall_forall. intros l Hl.
    apply (wf_elements w Hwf a), elem_of_dom in Hl as [p Hp].
    destruct (Hobj l p Hp) as (p' & Hp' & Hsame & _). by exists p, p'.
  - intros Hnomove. apply list_fmap_ext. intros i l Hl.
    apply list_elem_of_lookup_2, (wf_elements w Hwf a), elem_of_dom in Hl as [p Hp].
    destruct (Hobj l p Hp) as (p' & Hp' & _ & Heq). by rewrite Hp', Hp, Heq.
Qed.

Lemma snapshot_is_shallow_copy_witness :
  elements_of 2%positive
    (run one_project [MoveProject (newId twin_draw) Finished])
  = elements_of 2%positive one_project.
Proof.
  destruct (snapshot_is_shallow_copy
              [AddProject twin_draw (js "Build API") (js "Create REST endpoints") 3%float]
              (ProjectListListener 1%positive) 2%positive
              [MoveProject (newId twin_draw) Finished])
    as (_ & _ & _ & Hels & _).
  - vm_compute. apply list_elem_of_In. simpl. tauto.
  - exact Hels.
Defined.

(** C5 as stated fails: the array handed to the first column when the
    project was added shows the project as Finished once [moveProject]
    has run. *)
Lemma delivered_snapshot_changes :
  (ProjectListListener 1%positive, 2%positive) ∈ calls one_project
  ∧ contents 2%positive (moveProject (newId twin_draw) Finished one_project)
    ≠ contents 2%positive one_project.
Proof.
  split.
  - vm_compute. apply list_elem_of_In. simpl. tauto.
  - vm_compute. discriminate.
Qed.

End Snapshots.

(** ** Generated ids *)

Section Ids.
Implicit Types (w : World) (l : loc) (e : Ambient).

Lemma omap_ext_elem {A B} (f g : A → option B) (xs : list A) :
  (∀ x, x ∈ xs → f x = g x) → omap f xs = omap g xs.
Proof.
  intros Hfg. apply list_omap_ext, Forall_Forall2_diag, Forall_forall, Hfg.
Qed.

Lemma project_ids_ext w w' :
  projects w' = projects w →
  elements_of (projects w) w' = elements_of (projects w) w →
  (∀ l, l ∈ elements_of (projects w) w →
        id <$> objects w' !! l = id <$> objects w !! l) →
  project_ids w' = project_ids w.
Proof.
  intros Hprj Hels Hobj. unfold project_ids. rewrite Hprj, Hels.
  by apply omap_ext_elem.
Qed.

Lemma step_project_ids w o :
  wf w → project_ids (step w o) = project_ids w ++ (newId <$> draws [o]).
Proof.
  intros Hwf. destruct o as [fn|e t d n|projectId s]; simpl.
  - by rewrite app_nil_r.
  - destruct (addProject_effect e t d n w) as (Hfresh & Hobj & Hprj & Hels & _).
    unfold project_ids at 1. rewrite Hels, omap_app, Hobj. f_equal.
    + apply omap_ext_elem. intros l Hl. rewrite lookup_insert_ne; [done|].
      intros <-. by apply Hfresh, (wf_elements w Hwf (projects w)).
    + simpl. by rewrite lookup_insert_eq.
  - rewrite app_nil_r.
    destruct (moveProject_cases projectId s w) as [->|(l & p & _ & Hobj & _ & ->)]; [done|].
    destruct (updateListeners_frame (moved l p s w)) as (Hobj' & Hprj & Hels & _).
    apply project_ids_ext; [done..|].
    intros l' _. rewrite Hobj'. simpl.
    destruct (decide (l' = l)) as [->|Hne].
    + by rewrite lookup_insert_eq, Hobj.
    + by rewrite lookup_insert_ne.
Qed.

Lemma draws_cons o ops : draws (o :: ops) = draws [o] ++ draws ops.
Proof. unfold draws. simpl. by destruct o. Qed.

Lemma run_project_ids ops : ∀ w,
  wf w → project_ids (run w ops) = project_ids w ++ (newId <$> draws ops).
Proof.
  induction ops as [|o ops IH]; intros w Hwf.
  - simpl. by rewrite app_nil_r.
  - change (run w (o :: ops)) with (run (step w o) ops).
    rewrite IH by by apply wf_step.
    rewrite step_project_ids by done.
    by rewrite (draws_cons o ops), fmap_app, <- app_assoc.
Qed.

(** The template literal loses nothing when the timestamps have one
    length. *)
Lemma newId_inj e e' :
  length (date_toISOString e) = length (date_toISOString e') →
  newId e = newId e' → e = e'.
Proof.
  intros Hlen [Hr Hd]%app_inj_2; [|done].
  destruct e, e'; simpl in *. by subst.
Qed.

(** C9, amended: the ids of the projects created by a run of the page are
    the concatenations of the random and timestamp strings read by its
    [addProject] calls, in order; they are pairwise distinct whenever
    these pairs of strings are (timestamps having one length, as ISO
    timestamps do). *)
Theorem ids_distinct_for_distinct_draws ops n :
  Forall (λ e, length (date_toISOString e) = n) (draws ops) →
  NoDup (draws ops) →
  project_ids (run app ops) = newId <$> draws ops
  ∧ NoDup (project_ids (run app ops)).
Proof.
  intros Hlen Hnd.
  assert (Hids : project_ids (run app ops) = newId <$> draws ops).
  { by rewrite run_project_ids by apply wf_app. }
  split; [done|]. rewrite Hids.
  apply NoDup_fmap_2_strong; [|done].
  intros e e' He He'. rewrite Forall_forall in Hlen.
  apply newId_inj. by rewrite (Hlen e He), (Hlen e' He').
Qed.

Lemma ids_distinct_for_distinct_draws_witness :
  NoDup (project_ids
           (run app [AddProject twin_draw (js "A") (js "first") 1%float;
                     AddProject (mkAmbient (js "0.25") (js "2026-11-03T10:00:00.000Z"))
                                (js "B") (js "second") 2%float])).
Proof.
  apply (ids_distinct_for_distinct_draws
           [AddProject twin_draw (js "A") (js "first") 1%float;
            AddProject (mkAmbient (js "0.25") (js "2026-11-03T10:00:00.000Z"))
                       (js "B") (js "second") 2%float] 24).
  - repeat constructor.
  - apply NoDup_cons. split; [|apply NoDup_singleton].
    intros Hin%list_elem_of_singleton. discriminate Hin.
Defined.

(** C9 as stated fails: two [addProject] calls that read the same random
    number and the same timestamp create two projects with one id. *)
Lemma twins_share_id :
  project_ids
    (run app [AddProject twin_draw (js "A") (js "first") 1%float;
              AddProject twin_draw (js "B") (js "second") 2%float])
  = [newId twin_draw; newId twin_draw]
  ∧ ¬ NoDup (project_ids
               (run app [AddProject twin_draw (js "A") (js "first") 1%float;
                         AddProject twin_draw (js "B") (js "second") 2%float])).
Proof.
  assert (Hids : project_ids
    (run app [AddProject twin_draw (js "A") (js "first") 1%float;
              AddProject twin_draw (js "B") (js "second") 2%float])
    = [newId twin_draw; newId twin_draw]) by reflexivity.
  split; [done|]. rewrite Hids. intros [Hnotin _]%NoDup_cons.
  apply Hnotin, list_elem_of_singleton. reflexivity.
Qed.

End Ids.

(** ** The drag-transfer protocol *)

Section Drag.
Implicit Types (w : World) (dt : DataTransfer) (format data : jsstring).

Lemma find_setData format data (its : list (jsstring * jsstring)) :
  find (λ it, bool_decide (it.1 = format))
       (List.filter (λ it, negb (bool_decide (it.1 = format))) its ++ [(format, data)])
  = Some (format, data).
Proof.
  induction its as [|it its IH]; simpl.
  - by rewrite bool_decide_eq_true_2.
  - destruct (bool_decide (it.1 = format)) eqn:Hit; simpl; [done|].
    by rewrite Hit.
Qed.

Lemma find_setData_other format format' data (its : list (jsstring * jsstring)) :
  format' ≠ format →
  find (λ it, bool_decide (it.1 = format'))
       (List.filter (λ it, negb (bool_decide (it.1 = format))) its ++ [(format, data)])
  = find (λ it, bool_decide (it.1 = format')) its.
Proof.
  intros Hne. induction its as [|it its IH]; simpl.
  - by rewrite bool_decide_eq_false_2.
  - destruct (decide (it.1 = format)) as [Heq|Hneq].
    + rewrite (bool_decide_eq_true_2 _ Heq). simpl.
      by rewrite bool_decide_eq_false_2 by congruence.
    + rewrite (bool_decide_eq_false_2 _ Hneq). simpl.
      by destruct (bool_decide (it.1 = format')).
Qed.

Lemma getData_setData format data dt : getData format (setData format data dt) = data.
Proof. unfold getData, setData; simpl. by rewrite find_setData. Qed.

Lemma getData_setData_other format format' data dt :
  format' ≠ format → getData format' (setData format data dt) = getData format' dt.
Proof.
  intros Hne. unfold getData, setData; simpl. by rewrite find_setData_other.
Qed.

Lemma dropHandler_spec (column : ProjectList) event dt w :
  dataTransfer event = Some dt →
  dropHandler column event w
  = Some (event, moveProject (getData (js "text/plain") dt)
                             (status_of_type (type column)) w).
Proof. intros Hdt. unfold dropHandler. by rewrite Hdt. Qed.

(** C7: on a drag event that has a transfer object, [dragStartHandler]
    puts the id of the card's project under text/plain, in place of what
    was there, leaves the other formats alone, sets the allowed effect to
    move and does not touch the store; [dropHandler] reads the text/plain
    entry and calls [moveProject] with it and the status of its column. *)
Theorem drag_transfer_carries_id (item : ProjectItem) (column : ProjectList)
    event dt p w :
  dataTransfer event = Some dt →
  objects w !! project item = Some p →
  ∃ dt',
    dragStartHandler item event w = Some (mkDragEvent (Some dt'), w)
    ∧ items dt'
      = List.filter (λ it, negb (bool_decide (it.1 = js "text/plain"))) (items dt)
          ++ [(js "text/plain", id p)]
    ∧ getData (js "text/plain") dt' = id p
    ∧ (∀ format, format ≠ js "text/plain" → getData format dt' = getData format dt)
    ∧ effectAllowed dt' = js "move"
    ∧ (type column = active →
       dropHandler column (mkDragEvent (Some dt')) w
       = Some (mkDragEvent (Some dt'), moveProject (id p) Active w))
    ∧ (type column = finished →
       dropHandler column (mkDragEvent (Some dt')) w
       = Some (mkDragEvent (Some dt'), moveProject (id p) Finished w))
    ∧ dropHandler column event w
      = Some (event, moveProject (getData (js "text/plain") dt)
                                 (status_of_type (type column)) w).
Proof.
  intros Hdt Hobj.
  exists (set_effectAllowed (js "move") (setData (js "text/plain") (id p) dt)).
  split.
  { unfold dragStartHandler. rewrite Hdt, Hobj. reflexivity. }
  split; [reflexivity|].
  assert (Hget : getData (js "text/plain")
                   (set_effectAllowed (js "move") (setData (js "text/plain") (id p) dt))
                 = id p) by apply getData_setData.
  split; [done|]. split.
  { intros format Hne. by apply getData_setData_other. }
  split; [reflexivity|].
  split; [|split; [|by apply dropHandler_spec]].
  - intros Hty. erewrite dropHandler_spec by reflexivity. by rewrite Hget, Hty.
  - intros Hty. erewrite dropHandler_spec by reflexivity. by rewrite Hget, Hty.
Qed.

Lemma drag_transfer_carries_id_witness :
  dropHandler (mkProjectList finished [])
    (mkDragEvent
       (Some (set_effectAllowed (js "move")
                (setData (js "text/plain") (newId twin_draw)
                         (mkDataTransfer [] (js "uninitialized"))))))
    one_project
  = Some (mkDragEvent
            (Some (set_effectAllowed (js "move")
                     (setData (js "text/plain") (newId twin_draw)
                              (mkDataTransfer [] (js "uninitialized"))))),
          moveProject (newId twin_draw) Finished one_project).
Proof.
  destruct (drag_transfer_carries_id (mkProjectItem 1%positive)
              (mkProjectList finished [])
              (mkDragEvent (Some (mkDataTransfer [] (js "uninitialized"))))
              (mkDataTransfer [] (js "uninitialized"))
              (mkProject (newId twin_draw) (js "Build API")
                         (js "Create REST endpoints") 3%float Active)
              one_project)
    as (dt' & Hstart & _ & _ & _ & _ & _ & Hdrop & _).
  - reflexivity.
  - reflexivity.
  - injection Hstart as <-. apply Hdrop. reflexivity.
Defined.

(** The end-to-end scenario of the specification: the project submitted
    shows in the Active column only; dropped on the Finished column it
    shows there only; dropped on its own column nothing changes. *)
Example end_to_end :
  let dropped_on ty w :=
    snd <$> dropHandler (mkProjectList ty [])
              (mkDragEvent (Some (mkDataTransfer [(js "text/plain", newId twin_draw)]
                                                 (js "move")))) w in
  assignedProject <$> components one_project !! 1%positive = Some [1%positive]
  ∧ assignedProject <$> components one_project !! 2%positive = Some []
  ∧ (∃ w', dropped_on finished one_project = Some w'
           ∧ assignedProject <$> components w' !! 1%positive = Some []
           ∧ assignedProject <$> components w' !! 2%positive = Some [1%positive])
  ∧ dropped_on active one_project = Some one_project.
Proof.
  intros dropped_on. split; [reflexivity|]. split; [reflexivity|]. split.
  - eexists. split; [reflexivity|]. split; reflexivity.
  - reflexivity.
Qed.

End Drag.

(** ** Blank and non-numeric input *)

Section Input_edges.
Variable Number_toString : number → jsstring.

Lemma trimStart_nil (s : jsstring) :
  trimStart s = [] ↔ Forall (λ c, isWhiteSpace c = true) s.
Proof.
  induction s as [|c s IH]; simpl; [by split; [constructor|]|].
  destruct (isWhiteSpace c) eqn:Hc.
  - rewrite IH. split; [by constructor|by inversion 1].
  - split; [done|]. inversion 1; congruence.
Qed.

Lemma trimStart_head (s : jsstring) c r :
  trimStart s = c :: r → isWhiteSpace c = false.
Proof.
  induction s as [|c' s IH]; simpl; [done|].
  destruct (isWhiteSpace c') eqn:Hc; [done|]. by intros [= <- _].
Qed.

(** [trim] gives the empty string exactly on strings made of white space
    only. *)
Lemma trim_nil (s : jsstring) :
  trim s = [] ↔ Forall (λ c, isWhiteSpace c = true) s.
Proof.
  unfold trim. split.
  - intros Hrev. apply (f_equal (@rev N)) in Hrev. rewrite rev_involutive in Hrev.
    simpl in Hrev. apply trimStart_nil in Hrev.
    apply Forall_forall. intros c Hc.
    destruct (trimStart s) as [|c' r] eqn:Hs.
    + apply trimStart_nil in Hs. by eapply Forall_forall in Hs.
    + apply trimStart_head in Hs. rewrite Forall_forall in Hrev.
      rewrite (Hrev c') in Hs; [done|]. apply list_elem_of_In, in_rev.
      rewrite rev_involutive. by left.
  - intros Hs. apply trimStart_nil in Hs. by rewrite Hs.
Qed.

(** X1: a required string is accepted exactly when it has a code unit
    that is not white space; no other rule being set, nothing else is
    looked at. *)
Theorem required_accepts_nonblank (s : jsstring) :
  validate Number_toString (mkValidatable (VString s) (Some true) None None None None)
  = true
  ↔ ∃ c, c ∈ s ∧ isWhiteSpace c = false.
Proof.
  unfold validate; simpl. rewrite nonempty_check, trim_nil. split.
  - intros Hn. apply not_Forall_Exists in Hn; [|intros c; apply _].
    apply Exists_exists in Hn as (c & Hc & Hw). exists c. split; [done|].
    simpl in Hw. by destruct (isWhiteSpace c).
  - intros (c & Hc & Hw) Hall. rewrite Forall_forall in Hall.
    specialize (Hall c Hc). congruence.
Qed.

Lemma is_nan_spec (x : number) : is_nan x = true → Prim2SF x = S754_nan.
Proof.
  unfold is_nan. rewrite negb_true_iff, FloatAxioms.eqb_spec.
  unfold SFeqb, SFcompare.
  destruct (Prim2SF x) as [[]|[]| |[] m e]; simpl; try done;
    by rewrite Z.compare_refl, Pos.compare_cont_refl.
Qed.

Lemma Number_ge_NaN (x n : number) : is_nan x = true → Number_ge x n = false.
Proof.
  intros Hx%is_nan_spec. unfold Number_ge. rewrite leb_spec, Hx.
  unfold SFleb, SFcompare. by destruct (Prim2SF n) as [[]|[]| |[]].
Qed.

Lemma Number_le_NaN (x n : number) : is_nan x = true → Number_le x n = false.
Proof.
  intros Hx%is_nan_spec. unfold Number_le. by rewrite leb_spec, Hx.
Qed.

(** X2: NaN, which is what a non-numeric text converts to, fails every
    input that sets [min] or [max], whatever the bounds. *)
Theorem validate_rejects_NaN (x : number) r mn mx lo hi :
  is_nan x = true →
  is_Some lo ∨ is_Some hi →
  validate Number_toString (mkValidatable (VNumber x) r mn mx lo hi) = false.
Proof.
  intros Hnan Hset. unfold validate; simpl.
  destruct lo as [lo|], hi as [hi|]; simpl.
  - by rewrite (Number_le_NaN x hi Hnan), andb_false_r.
  - by rewrite (Number_ge_NaN x lo Hnan), andb_false_r.
  - by rewrite (Number_le_NaN x hi Hnan), andb_false_r.
  - by destruct Hset as [[? [=]]|[? [=]]].
Qed.

End Input_edges.

Lemma validate_rejects_NaN_witness :
  validate (λ _, js "NaN")
    (mkValidatable (VNumber nan) (Some true) None None (Some 1%float) (Some 5%float))
  = false.
Proof.
  apply (validate_rejects_NaN (λ _, js "NaN") nan (Some true) None None (Some 1%float) (Some 5%float)).
  - reflexivity.
  - left. exists 1%float. reflexivity.
Defined.

(** ** Cards and the drop indicator *)

Section Cards.
Variable Number_toString : number → jsstring.
Implicit Types (w : World) (dt : DataTransfer) (listEl : list jsstring).

(** X3: a card says "1 person" exactly when the project's [people] is
    the number 1; for every other number, NaN included, it says the
    number followed by " persons", and the line ends with
    "  assigned.". *)
Theorem persons_singular_iff_one w (this : ProjectItem) p :
  objects w !! project this = Some p →
  (persons Number_toString w this = Some (js "1 person")
   ↔ PrimFloat.eqb (people p) 1 = true)
  ∧ (PrimFloat.eqb (people p) 1 = false →
     persons Number_toString w this
     = Some (Number_toString (people p) ++ js " persons"))
  ∧ ∃ line, persons Number_toString w this = Some line
            ∧ h3 <$> renderContent Number_toString w this
              = Some (line ++ js "  assigned.").
Proof.
  intros Hobj. unfold renderContent, persons. rewrite Hobj. simpl.
  destruct (PrimFloat.eqb (people p) 1) eqn:Hone; simpl.
  - split; [done|]. split; [done|]. by eexists.
  - split; [|split; [done|by eexists]].
    split; [|done]. intros [= Heq]. apply (f_equal (@rev N)) in Heq.
    rewrite rev_app_distr in Heq. simpl in Heq. discriminate Heq.
Qed.

(** X4: the drag-over handler accepts the drag started on a card exactly
    when the transfer held no entry of another format before; on the
    empty transfer of a fresh drag it always does. *)
Theorem dragOver_accepts_card_drag (item : ProjectItem) event event' dt w w' listEl :
  dataTransfer event = Some dt →
  dragStartHandler item event w = Some (event', w') →
  (fst (dragOverHandler event' listEl) = true
   ↔ ∀ it, it ∈ items dt → it.1 = js "text/plain")
  ∧ (items dt = [] → fst (dragOverHandler event' listEl) = true).
Proof.
  intros Hdt Hstart. unfold dragStartHandler in Hstart. rewrite Hdt in Hstart.
  simpl in Hstart. destruct (objects w !! project item) as [p|]; [|done].
  simpl in Hstart. injection Hstart as <- <-.
  assert (Hiff : fst (dragOverHandler
                   (mkDragEvent (Some (set_effectAllowed (js "move")
                      (setData (js "text/plain") (id p) dt)))) listEl) = true
                 ↔ ∀ it, it ∈ items dt → it.1 = js "text/plain").
  { unfold dragOverHandler, types, setData; simpl.
    induction (items dt) as [|it its IH]; simpl.
    - split; [by intros _ it ?%elem_of_nil|done].
    - destruct (decide (it.1 = js "text/plain")) as [Heq|Hne].
      + rewrite (bool_decide_eq_true_2 _ Heq). simpl. rewrite IH. split.
        * intros Hall it' [->|Hin]%elem_of_cons; [done|by apply Hall].
        * intros Hall it' Hin. apply Hall, elem_of_cons. by right.
      + rewrite (bool_decide_eq_false_2 _ Hne). simpl.
        rewrite bool_decide_eq_false_2 by (by intros [= ?]). simpl.
        split; [done|]. intros Hall. destruct Hne. apply Hall, elem_of_cons. by left. }
  split; [done|]. intros Hnil. apply Hiff. rewrite Hnil. by intros it ?%elem_of_nil.
Qed.

Lemma classList_remove_id token listEl :
  token ∉ listEl → classList_remove token listEl = listEl.
Proof.
  induction listEl as [|t ts IH]; intros Hnotin; [done|].
  apply not_elem_of_cons in Hnotin as [Hne Hnotin].
  unfold classList_remove in *. cbn [List.filter].
  rewrite bool_decide_eq_false_2 by done. cbn [negb]. by rewrite IH.
Qed.

Lemma classList_remove_add token listEl :
  token ∉ listEl → classList_remove token (classList_add token listEl) = listEl.
Proof.
  intros Hnotin. unfold classList_add. rewrite bool_decide_eq_false_2 by done.
  unfold classList_remove. rewrite List.filter_app. cbn [List.filter].
  rewrite bool_decide_eq_true_2 by done. cbn [negb]. rewrite app_nil_r.
  by apply classList_remove_id.
Qed.

Lemma classList_remove_notin token listEl : token ∉ classList_remove token listEl.
Proof.
  unfold classList_remove. rewrite list_elem_of_In, filter_In.
  intros [_ Hne]. apply negb_true_iff, bool_decide_eq_false in Hne. done.
Qed.

Lemma classList_add_twice token listEl :
  classList_add token (classList_add token listEl) = classList_add token listEl.
Proof.
  unfold classList_add. destruct (decide (token ∈ listEl)) as [Hin|Hnotin].
  - rewrite (bool_decide_eq_true_2 _ Hin). by rewrite (bool_decide_eq_true_2 _ Hin).
  - rewrite (bool_decide_eq_false_2 _ Hnotin).
    rewrite bool_decide_eq_true_2; [done|].
    apply elem_of_app. right. by apply list_elem_of_singleton.
Qed.

Lemma dragOverHandler_cases event listEl :
  dragOverHandler event listEl = (true, classList_add (js "droppable") listEl)
  ∨ dragOverHandler event listEl = (false, listEl).
Proof.
  unfold dragOverHandler. destruct (dataTransfer event) as [dt|]; [|by right].
  destruct (bool_decide _); [by left|by right].
Qed.

(** X5: leaving the column clears the indicator whatever the hovering
    did: the class list has no "droppable" afterwards, and is the list of
    before the drag when that had none; hovering again and again adds the
    class once. *)
Theorem dragLeave_clears_indicator event listEl :
  (js "droppable" ∉ dragLeaveHandler (snd (dragOverHandler event listEl)))
  ∧ (js "droppable" ∉ listEl →
     dragLeaveHandler (snd (dragOverHandler event listEl)) = listEl)
  ∧ dragOverHandler event (snd (dragOverHandler event listEl))
    = dragOverHandler event listEl.
Proof.
  split; [apply classList_remove_notin|]. split.
  - intros Hnotin. unfold dragLeaveHandler.
    destruct (dragOverHandler_cases event listEl) as [-> | ->]; cbn [snd].
    + by apply classList_remove_add.
    + by apply classList_remove_id.
  - unfold dragOverHandler. destruct (dataTransfer event) as [dt|]; [|done].
    destruct (bool_decide _); [|done].
    cbn [snd]. by rewrite classList_add_twice.
Qed.

End Cards.

(** ** More on the store *)

Section Store_more.
Implicit Types (w : World) (fn : Listener) (a l : loc) (p : Project).

Lemma find_ext_elem {A} (f g : A → bool) (xs : list A) :
  (∀ x, x ∈ xs → f x = g x) → find f xs = find g xs.
Proof.
  induction xs as [|x xs IH]; intros Hfg; [done|]. cbn [find].
  rewrite (Hfg x) by (by left). destruct (g x); [done|].
  apply IH. intros y Hy. apply Hfg. by right.
Qed.

(** A status change hides no project from the lookup by id. *)
Lemma find_project_moved projectId l p s w :
  objects w !! l = Some p →
  find_project projectId (updateListeners (moved l p s w)) = find_project projectId w.
Proof.
  intros Hobj.
  destruct (updateListeners_frame (moved l p s w)) as (Hobj' & Hprj & Hels & _).
  unfold find_project. rewrite Hprj, Hobj'.
  change (projects (moved l p s w)) with (projects w) in *.
  rewrite Hels. change (elements_of (projects w) (moved l p s w))
    with (elements_of (projects w) w).
  apply find_ext_elem. intros l' _. cbn [objects moved].
  destruct (decide (l' = l)) as [->|Hne].
  - by rewrite lookup_insert_eq, Hobj.
  - by rewrite lookup_insert_ne.
Qed.

(** X6: [moveProject] is idempotent: moving a project to the status it
    was just moved to changes nothing and calls no listener. *)
Theorem moveProject_idempotent projectId s w :
  moveProject projectId s (moveProject projectId s w) = moveProject projectId s w.
Proof.
  destruct (moveProject_cases projectId s w) as [Hsame|(l & p & Hfind & Hobj & Hne & Hmoved)].
  - by rewrite !Hsame.
  - rewrite Hmoved. unfold moveProject at 1.
    rewrite (find_project_moved projectId l p s w Hobj), Hfind.
    destruct (updateListeners_frame (moved l p s w)) as (-> & _).
    cbn [objects moved]. rewrite lookup_insert_eq.
    by rewrite bool_decide_eq_false_2 by (by intros []).
Qed.

Lemma step_elements w o :
  ∃ news, elements_of (projects (step w o)) (step w o)
          = elements_of (projects w) w ++ news
          ∧ length news = length (draws [o]).
Proof.
  destruct o as [fn|e t d n|projectId s]; cbn [step].
  - exists []. by rewrite app_nil_r.
  - destruct (addProject_effect e t d n w) as (_ & _ & _ & Hels & _).
    by exists [fresh (dom (objects w))].
  - exists []. rewrite app_nil_r. split; [|done].
    destruct (moveProject_cases projectId s w) as [->|(l & p & _ & _ & _ & ->)]; [done|].
    destruct (updateListeners_frame (moved l p s w)) as (_ & -> & Hels & _).
    exact Hels.
Qed.

Lemma run_elements ops : ∀ w,
  ∃ news, elements_of (projects (run w ops)) (run w ops)
          = elements_of (projects w) w ++ news
          ∧ length news = length (draws ops).
Proof.
  induction ops as [|o ops IH]; intros w.
  - exists []. by rewrite app_nil_r.
  - change (run w (o :: ops)) with (run (step w o) ops).
    destruct (step_elements w o) as (n1 & Hels1 & Hlen1).
    destruct (IH (step w o)) as (n2 & Hels2 & Hlen2).
    exists (n1 ++ n2). rewrite Hels2, Hels1, <- app_assoc. split; [done|].
    by rewrite (draws_cons o ops), !length_app, Hlen1, Hlen2.
Qed.

(** X7: no call on the store removes or reorders projects: after any
    further calls the list is the list of before followed by one new
    project for each [addProject], and each project of before is still in
    the heap with the id, title, description and people it had. *)
Theorem list_only_grows ops later :
  let w := run app ops in
  let w' := run w later in
  (∃ news, elements_of (projects w') w' = elements_of (projects w) w ++ news
           ∧ length news = length (draws later))
  ∧ length (project_list w') = length (project_list w) + length (draws later)
  ∧ Forall2 (λ x x', ∃ p p', x = Some p ∧ x' = Some p' ∧ same_but_status p p')
            (project_list w) (take (length (project_list w)) (project_list w')).
Proof.
  intros w w'.
  assert (Hwf : wf w) by apply wf_run, wf_app.
  destruct (run_elements later w) as (news & Hels & Hlen). fold w' in Hels.
  destruct (run_frame later w Hwf) as (_ & _ & _ & Hobj). fold w' in Hobj.
  split; [by exists news|]. unfold project_list. rewrite Hels. split.
  { rewrite !length_fmap, length_app. lia. }
  rewrite fmap_app, take_app_length' by (by rewrite !length_fmap).
  apply Forall2_fmap, Forall_Forall2_diag, Forall_forall. intros l Hl.
  apply (wf_elements w Hwf (projects w)), elem_of_dom in Hl as [p Hp].
  destruct (Hobj l p Hp) as (p' & Hp' & Hsame & _). by exists p, p'.
Qed.

(** X8: in one broadcast no two listeners are handed the same array, and
    no array handed out existed before: it is neither the store's internal
    array nor an array handed out earlier. *)
Theorem broadcast_arrays_are_fresh ops o :
  let w := run app ops in
  broadcasts w o →
  ∃ ds : list (Listener * loc),
    calls (step w o) = calls w ++ ds
    ∧ NoDup ds.*2
    ∧ ∀ a, a ∈ ds.*2 →
           (a ∉ dom (arrays w))
           ∧ a ≠ projects (step w o)
           ∧ a ∉ (calls w).*2.
Proof.
  intros w Hb.
  assert (Hwf : wf w) by apply wf_run, wf_app.
  assert (Hcore : ∃ w1, step w o = updateListeners w1 ∧ calls w1 = calls w
                        ∧ projects w1 = projects w
                        ∧ dom (arrays w) ⊆ dom (arrays w1)).
  { destruct o as [fn|e t d n|projectId s]; cbn [step broadcasts] in *; [done|..].
    - exists (pushed e t d n w). split; [by rewrite addProject_unfold|].
      do 2 (split; [done|]). cbn [arrays pushed]. rewrite dom_insert_L.
      apply union_subseteq_r.
    - destruct Hb as (l & p & Hfind & Hobj & Hne). exists (moved l p s w).
      split; [by apply moveProject_found|]. by do 2 (split; [done|]). }
  destruct Hcore as (w1 & -> & Hcalls & Hprj & Hdom).
  unfold updateListeners.
  destruct (broadcast_spec (listeners w1) w1)
    as (_ & Hprj' & _ & _ & _ & _ & ds & Hcalls' & _ & Hnd & Hds).
  exists ds. rewrite Hcalls', Hcalls, Hprj', Hprj. split; [done|]. split; [done|].
  intros a Ha. destruct (Hds a Ha) as [Hfresh _].
  assert (Hfresh' : a ∉ dom (arrays w)) by (intros Hin; by apply Hfresh, Hdom).
  split; [done|]. split.
  - intros ->. by apply Hfresh', (wf_projects w Hwf).
  - intros ([fn a'] & Heq & Hin)%list_elem_of_fmap. simpl in Heq. subst a'.
    by destruct (wf_calls w Hwf fn a Hin).
Qed.

End Store_more.

(** ** The columns follow the store *)

Section Columns.
Implicit Types (w : World) (fn : Listener) (a l this : loc) (c : ProjectList).

Lemma status_at_objects w w' : objects w' = objects w → status_at w' = status_at w.
Proof. intros Hobj. unfold status_at. by rewrite Hobj. Qed.

Lemma refreshed_twice w els c : refreshed w els (refreshed w els c) = refreshed w els c.
Proof. done. Qed.

(** One turn of the loop refreshes the column of the listener. *)
Lemma notify_components w this :
  components (notify w (ProjectListListener this))
  = alter (refreshed w (elements_of (projects w) w)) this (components w).
Proof.
  unfold notify, slice, call. cbn [components objects arrays].
  assert (Hels : elements_of (fresh (dom (arrays w)))
            (mkWorld (objects w)
               (<[fresh (dom (arrays w)) := elements_of (projects w) w]> (arrays w))
               (projects w) (listeners w) (components w) (calls w))
          = elements_of (projects w) w).
  { unfold elements_of at 1. cbn [arrays]. by rewrite lookup_insert_eq. }
  rewrite Hels. apply map_eq. intros i.
  destruct (decide (i = this)) as [->|Hne].
  - rewrite !lookup_alter_eq. by destruct (components w !! this).
  - by rewrite !lookup_alter_ne.
Qed.

(** The loop of [updateListeners] refreshes the columns whose listener is
    in the list and leaves the other columns alone. *)
Lemma broadcast_components fns : ∀ w this,
  components (foldl notify w fns) !! this
  = if bool_decide (ProjectListListener this ∈ fns)
    then refreshed w (elements_of (projects w) w) <$> components w !! this
    else components w !! this.
Proof.
  induction fns as [|[this0] fns IH]; intros w this; cbn [foldl].
  - by rewrite bool_decide_eq_false_2 by apply not_elem_of_nil.
  - rewrite IH.
    destruct (notify_spec w (ProjectListListener this0))
      as (_ & Hobj & Hprj & _ & _ & _).
    rewrite Hprj, notify_elements_of_projects, notify_components.
    assert (Href : refreshed (notify w (ProjectListListener this0))
                             (elements_of (projects w) w)
                   = refreshed w (elements_of (projects w) w)).
    { unfold refreshed. by rewrite (status_at_objects w _ Hobj). }
    rewrite Href.
    destruct (decide (this = this0)) as [->|Hne].
    + rewrite lookup_alter_eq.
      rewrite (bool_decide_eq_true_2 (_ ∈ _ :: _)) by (by left).
      destruct (bool_decide _); [|done].
      by destruct (components w !! this0).
    + rewrite lookup_alter_ne by done.
      destruct (decide (ProjectListListener this ∈ fns)) as [Hin|Hnotin].
      * rewrite (bool_decide_eq_true_2 _ Hin).
        by rewrite bool_decide_eq_true_2 by (by right).
      * rewrite (bool_decide_eq_false_2 _ Hnotin).
        rewrite bool_decide_eq_false_2; [done|].
        intros [[= ?]|?]%elem_of_cons; done.
Qed.

(** A broadcast brings every registered column in line with the store. *)
Lemma updateListeners_in_sync w :
  columns_registered w → in_sync (updateListeners w).
Proof.
  intros Hreg this c. unfold updateListeners.
  rewrite broadcast_components.
  destruct (broadcast_spec (listeners w) w) as (Hobj & -> & _ & _ & -> & _).
  rewrite (status_at_objects w _ Hobj).
  destruct (components w !! this) as [c0|] eqn:Hc0.
  - rewrite bool_decide_eq_true_2 by (apply Hreg; by rewrite Hc0).
    by intros [= <-].
  - by destruct (bool_decide _).
Qed.

Lemma updateListeners_types w this :
  type <$> components (updateListeners w) !! this = type <$> components w !! this.
Proof.
  unfold updateListeners. rewrite broadcast_components.
  destruct (bool_decide _); [|done]. by destruct (components w !! this).
Qed.

Lemma updateListeners_registered w :
  columns_registered w → columns_registered (updateListeners w).
Proof.
  intros Hreg this Hsome.
  unfold updateListeners.
  destruct (broadcast_spec (listeners w) w) as (_ & _ & -> & _).
  apply Hreg. rewrite <- (fmap_is_Some type), <- updateListeners_types.
  by rewrite fmap_is_Some.
Qed.

Lemma columns_ok_app : columns_ok app.
Proof.
  split.
  - intros this c. unfold app; cbn.
    destruct (decide (this = 2%positive)) as [->|H2].
    { cbn. by intros [= <-]. }
    destruct (decide (this = 1%positive)) as [->|H1].
    { cbn. by intros [= <-]. }
    rewrite !lookup_insert_ne by done. by rewrite lookup_empty.
  - intros this. unfold app; cbn.
    destruct (decide (this = 2%positive)) as [->|H2].
    { intros _. apply elem_of_cons. right. by left. }
    destruct (decide (this = 1%positive)) as [->|H1].
    { intros _. by left. }
    rewrite !lookup_insert_ne by done. rewrite lookup_empty. by intros [? [=]].
  - reflexivity.
  - reflexivity.
  - intros this. unfold app; cbn.
    destruct (decide (this = 2%positive)) as [->|H2]; [by right|].
    destruct (decide (this = 1%positive)) as [->|H1]; [by left|].
    rewrite !lookup_insert_ne by done. rewrite lookup_empty. by intros [? [=]].
Qed.

Lemma columns_ok_updateListeners w :
  columns_registered w →
  type <$> components w !! 1%positive = Some active →
  type <$> components w !! 2%positive = Some finished →
  (∀ this, is_Some (components w !! this) → this = 1%positive ∨ this = 2%positive) →
  columns_ok (updateListeners w).
Proof.
  intros Hreg H1 H2 Htwo. split.
  - by apply updateListeners_in_sync.
  - by apply updateListeners_registered.
  - by rewrite updateListeners_types.
  - by rewrite updateListeners_types.
  - intros this Hsome. apply Htwo.
    rewrite <- (fmap_is_Some type), <- updateListeners_types. by rewrite fmap_is_Some.
Qed.

Lemma columns_ok_step w o : columns_ok w → columns_ok (step w o).
Proof.
  intros [Hsync Hreg H1 H2 Htwo]. destruct o as [fn|e t d n|projectId s]; cbn [step].
  - split; try done. intros this Hsome. cbn [addListener listeners components] in *.
    apply elem_of_app. left. by apply Hreg.
  - rewrite addProject_unfold. by apply columns_ok_updateListeners.
  - destruct (moveProject_cases projectId s w) as [->|(l & p & _ & _ & _ & ->)]; [done|].
    by apply columns_ok_updateListeners.
Qed.

Lemma columns_ok_run ops : ∀ w, columns_ok w → columns_ok (run w ops).
Proof.
  induction ops as [|o ops IH]; intros w Hok; [done|].
  by apply IH, columns_ok_step.
Qed.

(** X9: whatever calls the store has received, the Active column holds
    exactly the projects whose status is Active and the Finished column
    the others, both in the order of the store's list; every project is
    in one of the two columns. *)
Theorem columns_show_the_store ops :
  let w := run app ops in
  let els := elements_of (projects w) w in
  ∃ act fin,
    components w !! 1%positive = Some (mkProjectList active act)
    ∧ components w !! 2%positive = Some (mkProjectList finished fin)
    ∧ act = relevantProjects (status_at w) active els
    ∧ fin = relevantProjects (status_at w) finished els
    ∧ act ++ fin ≡ₚ els
    ∧ length act + length fin = length els.
Proof.
  intros w els.
  destruct (columns_ok_run ops app columns_ok_app) as [Hsync _ H1 H2 _].
  fold w in Hsync, H1, H2.
  destruct (components w !! 1%positive) as [[ty1 act]|] eqn:Hc1; [|done].
  destruct (components w !! 2%positive) as [[ty2 fin]|] eqn:Hc2; [|done].
  cbn in H1, H2. injection H1 as ->. injection H2 as ->.
  pose proof (Hsync _ _ Hc1) as Hact. pose proof (Hsync _ _ Hc2) as Hfin.
  cbn [assignedProject type] in Hact, Hfin. fold els in Hact, Hfin.
  exists act, fin. do 4 (split; [done|]).
  assert (Hperm : act ++ fin ≡ₚ els).
  { rewrite Hact, Hfin. apply relevantProjects_union. }
  split; [done|]. by rewrite <- length_app, Hperm.
Qed.

End Columns.

(** ** Dragging a card to a column *)

Section Card_drop.
Implicit Types (w : World) (l this : loc) (c : ProjectList).

Lemma status_of_type_inj ty ty' : status_of_type ty = status_of_type ty' → ty = ty'.
Proof. by destruct ty, ty'. Qed.

Lemma find_project_elem projectId w l :
  find_project projectId w = Some l → l ∈ elements_of (projects w) w.
Proof.
  unfold find_project. intros [Hin _]%find_some. by apply list_elem_of_In.
Qed.

Lemma moveProject_status projectId s w l :
  find_project projectId w = Some l → is_Some (objects w !! l) →
  status_at (moveProject projectId s w) l = s.
Proof.
  intros Hfind [p Hobj]. destruct (decide (status p = s)) as [Heq|Hne].
  - unfold moveProject. rewrite Hfind, Hobj.
    rewrite bool_decide_eq_false_2 by (by intros []).
    unfold status_at. by rewrite Hobj.
  - rewrite (moveProject_found projectId s w l p) by done.
    destruct (updateListeners_frame (moved l p s w)) as (Hobj' & _).
    unfold status_at. rewrite Hobj'. cbn [objects moved].
    by rewrite lookup_insert_eq.
Qed.

Lemma renderProjects_elem (item : ProjectItem) c :
  item ∈ renderProjects c ↔ project item ∈ assignedProject c.
Proof.
  unfold renderProjects. rewrite list_elem_of_fmap. destruct item as [l]. split.
  - by intros (l' & [= ->] & Hin).
  - intros Hin. by exists l.
Qed.

(** X10: in any state of the page, dragging the card of a project (one
    that the lookup by its id finds) and dropping it on a column puts the
    project in the columns of that type and in no other: its card is
    rendered in the target column and in no column of the other type. *)
Theorem dropped_card_shows_in_target ops (item : ProjectItem) target column p event dt :
  let w := run app ops in
  components w !! target = Some column →
  objects w !! project item = Some p →
  find_project (id p) w = Some (project item) →
  dataTransfer event = Some dt →
  ∃ event' w',
    dragStartHandler item event w = Some (event', w)
    ∧ dropHandler column event' w = Some (event', w')
    ∧ status_at w' (project item) = status_of_type (type column)
    ∧ ∀ this c, components w' !! this = Some c →
                (item ∈ renderProjects c ↔ type c = type column).
Proof.
  intros w Hcol Hobj Hfind Hdt.
  set (dt' := set_effectAllowed (js "move") (setData (js "text/plain") (id p) dt)).
  set (w' := moveProject (id p) (status_of_type (type column)) w).
  exists (mkDragEvent (Some dt')), w'.
  assert (Hstart : dragStartHandler item event w = Some (mkDragEvent (Some dt'), w)).
  { unfold dragStartHandler. by rewrite Hdt, Hobj. }
  assert (Hdrop : dropHandler column (mkDragEvent (Some dt')) w
                  = Some (mkDragEvent (Some dt'), w')).
  { assert (Hget : getData (js "text/plain") dt' = id p) by apply getData_setData.
    rewrite (dropHandler_spec column (mkDragEvent (Some dt')) dt' w) by done.
    by rewrite Hget. }
  assert (Hst : status_at w' (project item) = status_of_type (type column)).
  { apply moveProject_status; [done|by eexists]. }
  do 3 (split; [done|]).
  assert (Hok : columns_ok w').
  { apply (columns_ok_step w (MoveProject (id p) (status_of_type (type column)))).
    apply columns_ok_run, columns_ok_app. }
  assert (Hin : project item ∈ elements_of (projects w') w').
  { destruct (step_elements w (MoveProject (id p) (status_of_type (type column))))
      as (news & Hels & _). cbn [step] in Hels. fold w' in Hels.
    rewrite Hels. apply elem_of_app. left. by apply find_project_elem in Hfind. }
  intros this c Hc.
  rewrite renderProjects_elem, (ok_sync w' Hok this c Hc), relevantProjects_elem, Hst.
  split.
  - intros [_ Heq]. symmetry. by apply status_of_type_inj.
  - intros ->. done.
Qed.

(** X11: a drop that carries no text/plain entry (a file, a link from
    another page) leaves the store as it is, as long as no project has the
    empty id. *)
Theorem foreign_drop_is_ignored (column : ProjectList) event dt w :
  dataTransfer event = Some dt →
  js "text/plain" ∉ types dt →
  (∀ l p, l ∈ elements_of (projects w) w → objects w !! l = Some p → id p ≠ []) →
  dropHandler column event w = Some (event, w).
Proof.
  intros Hdt Hnotin Hids. rewrite (dropHandler_spec column event dt w Hdt).
  assert (Hget : getData (js "text/plain") dt = []).
  { unfold getData. destruct (find _ (items dt)) as [it|] eqn:Hfind; [|done].
    apply find_some in Hfind as [Hin Heq]. apply bool_decide_eq_true in Heq.
    destruct Hnotin. unfold types. apply list_elem_of_fmap. exists it.
    split; [done|]. by apply list_elem_of_In. }
  rewrite Hget. unfold moveProject. by rewrite (find_project_None [] w Hids).
Qed.

End Card_drop.

(** ** The form *)

Section Form_properties.
Variable Number_toString : number → jsstring.
Variable Number_of_string : jsstring → number.
Implicit Types (pg : Page) (w : World) (p : Project).

Lemma validate_title (t : jsstring) :
  validate Number_toString (titleValidatable t) = true
  ↔ rule_required Number_toString (VString t).
Proof. unfold validate, rule_required; cbn. by rewrite nonempty_check. Qed.

Lemma validate_description (d : jsstring) :
  validate Number_toString (descriptionValidatable d) = true
  ↔ rule_required Number_toString (VString d) ∧ rule_minLength 5%float (VString d).
Proof.
  unfold validate, rule_required, rule_minLength; cbn.
  by rewrite andb_true_iff, nonempty_check.
Qed.

Lemma validate_people (s : jsstring) :
  validate Number_toString (peopleValidatable Number_of_string s) = true
  ↔ rule_required Number_toString (VNumber (Number_of_string s))
    ∧ rule_min 1%float (VNumber (Number_of_string s))
    ∧ rule_max 5%float (VNumber (Number_of_string s)).
Proof.
  unfold validate, rule_required, rule_min, rule_max; cbn.
  rewrite !andb_true_iff, nonempty_check. tauto.
Qed.

Lemma gatherUserInput_Some (this : ProjectForm) :
  entries_pass Number_toString (titleInputEl this) (descriptionInputEl this)
               (Number_of_string (peopleInputEl this)) →
  gatherUserInput Number_toString Number_of_string this
  = Some (titleInputEl this, descriptionInputEl this,
          Number_of_string (peopleInputEl this)).
Proof.
  intros (Ht & Hd & Hlen & Hp & Hlo & Hhi). unfold gatherUserInput.
  rewrite (proj2 (validate_title _)) by done.
  rewrite (proj2 (validate_description _)) by done.
  by rewrite (proj2 (validate_people _)) by done.
Qed.

Lemma gatherUserInput_inv (this : ProjectForm) t d x :
  gatherUserInput Number_toString Number_of_string this = Some (t, d, x) →
  t = titleInputEl this ∧ d = descriptionInputEl this
  ∧ x = Number_of_string (peopleInputEl this)
  ∧ entries_pass Number_toString t d x.
Proof.
  unfold gatherUserInput.
  destruct (validate _ (titleValidatable _)) eqn:Ht; [|done].
  destruct (validate _ (descriptionValidatable _)) eqn:Hd; [|done].
  destruct (validate _ (peopleValidatable _ _)) eqn:Hp; [|done].
  cbn [negb orb]. intros [= <- <- <-].
  apply validate_title in Ht. apply validate_description in Hd as [Hd Hlen].
  apply validate_people in Hp as (Hp & Hlo & Hhi). by repeat split.
Qed.

Lemma gatherUserInput_None (this : ProjectForm) :
  ¬ entries_pass Number_toString (titleInputEl this) (descriptionInputEl this)
                 (Number_of_string (peopleInputEl this)) →
  gatherUserInput Number_toString Number_of_string this = None.
Proof.
  intros Hfail.
  destruct (gatherUserInput Number_toString Number_of_string this)
    as [[[t d] x]|] eqn:Hg; [|done].
  apply gatherUserInput_inv in Hg as (-> & -> & -> & Hpass). by destruct Hfail.
Qed.

(** X12: a submit whose entries break a rule changes neither the store
    nor the entries, which stay for the user to correct, and shows one
    alert. *)
Theorem rejected_submit_keeps_page e pg :
  ¬ entries_pass Number_toString (titleInputEl (prjInput pg))
                 (descriptionInputEl (prjInput pg))
                 (Number_of_string (peopleInputEl (prjInput pg))) →
  submitHandler Number_toString Number_of_string e pg
  = mkPage (store pg) (prjInput pg)
           (alerts pg ++ [js "Invalid Input, please try again!"]).
Proof.
  intros Hfail. unfold submitHandler. by rewrite gatherUserInput_None.
Qed.

(** X13: a submit whose entries pass every rule adds one project to the
    store, Active and last in the list, with the title and description
    as typed (not trimmed) and the number the people entry converts to,
    broadcasts once, empties the three entries and shows no alert. *)
Theorem accepted_submit_adds_project e pg :
  let t := titleInputEl (prjInput pg) in
  let d := descriptionInputEl (prjInput pg) in
  let n := Number_of_string (peopleInputEl (prjInput pg)) in
  let pg' := submitHandler Number_toString Number_of_string e pg in
  entries_pass Number_toString t d n →
  prjInput pg' = mkProjectForm [] [] []
  ∧ alerts pg' = alerts pg
  ∧ store pg' = addProject e t d n (store pg)
  ∧ last (project_list (store pg')) = Some (Some (mkProject (newId e) t d n Active))
  ∧ length (project_list (store pg')) = S (length (project_list (store pg)))
  ∧ one_broadcast (store pg) (store pg').
Proof.
  intros t d n pg' Hpass. subst pg'. unfold submitHandler.
  rewrite gatherUserInput_Some by done. cbn [prjInput alerts store].
  fold t d n.
  destruct (addProject_effect e t d n (store pg))
    as (_ & _ & _ & _ & Hlen & Hlast & Hbc & _).
  by repeat split.
Qed.

Lemma moveProject_objects projectId s w l p' :
  objects (moveProject projectId s w) !! l = Some p' →
  ∃ p, objects w !! l = Some p ∧ same_but_status p p'.
Proof.
  destruct (moveProject_cases projectId s w) as [->|(l0 & p0 & _ & Hobj & _ & ->)].
  { intros Hp'. by exists p'. }
  destruct (updateListeners_frame (moved l0 p0 s w)) as (-> & _).
  cbn [objects moved]. destruct (decide (l = l0)) as [->|Hne].
  - rewrite lookup_insert_eq. intros [= <-]. by exists p0.
  - rewrite lookup_insert_ne by done. intros Hp'. by exists p'.
Qed.

Lemma passes_form_rules_same p p' :
  same_but_status p p' → passes_form_rules Number_toString p →
  passes_form_rules Number_toString p'.
Proof.
  intros (_ & Ht & Hd & Hn). unfold passes_form_rules. by rewrite Ht, Hd, Hn.
Qed.

Lemma handle_keeps_rules pg ev :
  (∀ l p, objects (store pg) !! l = Some p → passes_form_rules Number_toString p) →
  ∀ l p, objects (store (handle Number_toString Number_of_string pg ev)) !! l = Some p →
         passes_form_rules Number_toString p.
Proof.
  intros Hinv l p. destruct ev as [t d n|e|column event]; cbn [handle store].
  - apply Hinv.
  - unfold submitHandler.
    destruct (gatherUserInput _ _ _) as [[[t d] x]|] eqn:Hg; cbn [store]; [|apply Hinv].
    apply gatherUserInput_inv in Hg as (_ & _ & _ & Hpass).
    destruct (addProject_effect e t d x (store pg)) as (_ & -> & _).
    destruct (decide (l = fresh (dom (objects (store pg))))) as [->|Hne].
    + rewrite lookup_insert_eq. by intros [= <-].
    + rewrite lookup_insert_ne by done. apply Hinv.
  - destruct (components (store pg) !! column) as [this|]; cbn; [|apply Hinv].
    unfold dropHandler. destruct (dataTransfer event) as [dt|]; cbn; [|apply Hinv].
    intros (p0 & Hp0 & Hsame)%moveProject_objects.
    eapply passes_form_rules_same; eauto.
Qed.

(** X14: every project the page ever holds passes the rules of the form:
    whatever the user types, submits and drops, a project in the store
    has a title and a description that are not blank, a description of
    length 5 at least and a number of people from 1 to 5. *)
Theorem store_holds_valid_projects evs l p :
  objects (store (handle_all Number_toString Number_of_string start evs)) !! l = Some p →
  passes_form_rules Number_toString p.
Proof.
  revert l p. unfold handle_all.
  induction evs as [|ev evs IH] using rev_ind.
  - intros l p. cbn. by rewrite lookup_empty.
  - rewrite foldl_snoc. by apply handle_keeps_rules.
Qed.

End Form_properties.

(** ** The properties at work *)

Lemma persons_singular_iff_one_witness :
  persons toString_3 one_project (mkProjectItem 1%positive) = Some (js "3 persons").
Proof.
  destruct (persons_singular_iff_one toString_3 one_project (mkProjectItem 1%positive)
              (mkProject (newId twin_draw) (js "Build API")
                         (js "Create REST endpoints") 3%float Active))
    as (_ & Hplural & _).
  - reflexivity.
  - apply Hplural. reflexivity.
Defined.

Lemma dragOver_accepts_card_drag_witness :
  fst (dragOverHandler
         (mkDragEvent
            (Some (set_effectAllowed (js "move")
                     (setData (js "text/plain") (newId twin_draw)
                              (mkDataTransfer [] (js "uninitialized"))))))
         []) = true.
Proof.
  destruct (dragOver_accepts_card_drag (mkProjectItem 1%positive) fresh_drag
              (mkDragEvent
                 (Some (set_effectAllowed (js "move")
                          (setData (js "text/plain") (newId twin_draw)
                                   (mkDataTransfer [] (js "uninitialized"))))))
              (mkDataTransfer [] (js "uninitialized")) one_project one_project [])
    as [_ Hempty].
  - reflexivity.
  - reflexivity.
  - apply Hempty. reflexivity.
Defined.

Lemma broadcast_arrays_are_fresh_witness :
  ∃ ds : list (Listener * loc),
    calls (step app (AddProject twin_draw (js "A") (js "first") 1%float))
    = calls app ++ ds
    ∧ NoDup ds.*2.
Proof.
  destruct (broadcast_arrays_are_fresh []
              (AddProject twin_draw (js "A") (js "first") 1%float))
    as (ds & Hcalls & Hnd & _).
  - exact I.
  - exists ds. split; [exact Hcalls|exact Hnd].
Defined.

Lemma dropped_card_shows_in_target_witness :
  ∃ event' w',
    dragStartHandler (mkProjectItem 1%positive) fresh_drag one_project
    = Some (event', one_project)
    ∧ dropHandler (mkProjectList finished []) event' one_project = Some (event', w')
    ∧ status_at w' 1%positive = Finished.
Proof.
  destruct (dropped_card_shows_in_target
              [AddProject twin_draw (js "Build API") (js "Create REST endpoints") 3%float]
              (mkProjectItem 1%positive) 2%positive (mkProjectList finished [])
              (mkProject (newId twin_draw) (js "Build API")
                         (js "Create REST endpoints") 3%float Active)
              fresh_drag (mkDataTransfer [] (js "uninitialized")))
    as (event' & w' & Hstart & Hdrop & Hst & _).
  - reflexivity.
  - reflexivity.
  - reflexivity.
  - reflexivity.
  - exists event', w'. split; [exact Hstart|]. split; [exact Hdrop|exact Hst].
Defined.

Lemma foreign_drop_is_ignored_witness :
  dropHandler (mkProjectList finished []) fresh_drag one_project
  = Some (fresh_drag, one_project).
Proof.
  apply (foreign_drop_is_ignored (mkProjectList finished []) fresh_drag
           (mkDataTransfer [] (js "uninitialized")) one_project).
  - reflexivity.
  - apply not_elem_of_nil.
  - intros l p Hl Hp Hid.
    assert (Hels : elements_of (projects one_project) one_project = [1%positive])
      by reflexivity.
    rewrite Hels in Hl. apply list_elem_of_singleton in Hl. subst l.
    assert (Hobj : objects one_project !! 1%positive
                   = Some (mkProject (newId twin_draw) (js "Build API")
                                     (js "Create REST endpoints") 3%float Active))
      by reflexivity.
    rewrite Hobj in Hp. injection Hp as <-. discriminate Hid.
Defined.

Lemma rejected_submit_keeps_page_witness :
  submitHandler toString_3 of_string_3 twin_draw start
  = mkPage app (mkProjectForm [] [] []) [js "Invalid Input, please try again!"].
Proof.
  apply (rejected_submit_keeps_page toString_3 of_string_3 twin_draw start).
  intros (Htitle & _). apply Htitle. reflexivity.
Defined.

Lemma filled_in_passes :
  entries_pass toString_3 (js "Build API") (js "Create REST endpoints") 3%float.
Proof.
  unfold entries_pass, rule_required, rule_minLength, rule_min, rule_max.
  repeat split; (reflexivity || (intros Heq; vm_compute in Heq; discriminate Heq)).
Qed.

Lemma accepted_submit_adds_project_witness :
  prjInput (submitHandler toString_3 of_string_3 twin_draw filled_in)
  = mkProjectForm [] [] []
  ∧ store (submitHandler toString_3 of_string_3 twin_draw filled_in) = one_project.
Proof.
  destruct (accepted_submit_adds_project toString_3 of_string_3 twin_draw filled_in)
    as (Hform & _ & Hstore & _).
  - exact filled_in_passes.
  - split; [exact Hform|exact Hstore].
Defined.

Lemma store_holds_valid_projects_witness :
  passes_form_rules toString_3
    (mkProject (newId twin_draw) (js "Build API") (js "Create REST endpoints")
               3%float Active).
Proof.
  apply (store_holds_valid_projects toString_3 of_string_3
           [Input (js "Build API") (js "Create REST endpoints") (js "3");
            Submit twin_draw]
           1%positive).
  reflexivity.
Defined.

(** ** A column created late, and entries that cannot pass *)

Section Late_column.
Implicit Types (w : World) (this : loc).

Lemma step_updateListeners w o :
  broadcasts w o →
  ∃ w1, step w o = updateListeners w1 ∧ listeners w1 = listeners w
        ∧ components w1 = components w.
Proof.
  destruct o as [fn|e t d n|projectId s]; cbn [step broadcasts]; [done|..].
  - intros _. exists (pushed e t d n w). by rewrite addProject_unfold.
  - intros (l & p & Hfind & Hobj & Hne). exists (moved l p s w).
    split; [by apply moveProject_found|done].
Qed.

(** X15: a column created when the store already holds projects starts
    empty: the constructor registers its listener after the others and
    calls nothing. The next call that changes the store brings it, like
    every column, in line with the store. *)
Theorem late_column_catches_up ops ty o :
  let w := run app ops in
  let this := fst (new_ProjectList ty w) in
  let w1 := snd (new_ProjectList ty w) in
  components w1 !! this = Some (mkProjectList ty [])
  ∧ components w !! this = None
  ∧ listeners w1 = listeners w ++ [ProjectListListener this]
  ∧ calls w1 = calls w
  ∧ (broadcasts w1 o → in_sync (step w1 o)).
Proof.
  intros w this w1. subst this w1. unfold new_ProjectList.
  cbn [fst snd addListener components listeners calls].
  split; [by rewrite lookup_insert_eq|].
  split; [apply not_elem_of_dom, is_fresh|]. split; [done|]. split; [done|].
  intros Hb. apply step_updateListeners in Hb as (w1 & -> & Hlis & Hcomp).
  apply updateListeners_in_sync. intros this. rewrite Hlis, Hcomp.
  cbn [addListener listeners components].
  destruct (decide (this = fresh (dom (components w)))) as [->|Hne].
  - intros _. apply elem_of_app. right. by apply list_elem_of_singleton.
  - rewrite lookup_insert_ne by done. intros Hsome.
    apply elem_of_app. left.
    by apply (ok_registered w (columns_ok_run ops app columns_ok_app)).
Qed.

End Late_column.

Section Hopeless_entries.
Variable Number_toString : number → jsstring.
Variable Number_of_string : jsstring → number.

(** X16: a submit is rejected, with the page as in a rejected submit,
    whenever the title or the description is made of white space only, or
    the people entry converts to NaN. *)
Theorem blank_or_non_numeric_is_rejected e (pg : Page) :
  Forall (λ c, isWhiteSpace c = true) (titleInputEl (prjInput pg))
  ∨ Forall (λ c, isWhiteSpace c = true) (descriptionInputEl (prjInput pg))
  ∨ is_nan (Number_of_string (peopleInputEl (prjInput pg))) = true →
  submitHandler Number_toString Number_of_string e pg
  = mkPage (store pg) (prjInput pg)
           (alerts pg ++ [js "Invalid Input, please try again!"]).
Proof.
  intros Hbad. unfold submitHandler.
  rewrite gatherUserInput_None; [done|].
  intros (Ht & Hd & _ & _ & Hlo & _).
  destruct Hbad as [Hblank|[Hblank|Hnan]].
  - by apply Ht, trim_nil.
  - by apply Hd, trim_nil.
  - unfold rule_min in Hlo. by rewrite (Number_ge_NaN _ _ Hnan) in Hlo.
Qed.

End Hopeless_entries.

Lemma blank_or_non_numeric_is_rejected_witness :
  store (submitHandler toString_3 of_string_3 twin_draw
           (mkPage app (mkProjectForm (js "Build API") (js "Create REST endpoints")
                                      (js "three")) []))
  = app.
Proof.
  rewrite (blank_or_non_numeric_is_rejected toString_3 of_string_3 twin_draw
             (mkPage app (mkProjectForm (js "Build API") (js "Create REST endpoints")
                                        (js "three")) [])).
  - reflexivity.
  - right. right. reflexivity.
Defined.
